(** * thornpy: a shallow embedding of the numeric core and its checked properties

    The development follows the three source files of the library:
    - [thorpy/numtype.py]    (module [Numtype]),
    - [thornpy/utilities.py] (module [Utilities]),
    - [thornpy/signal.py]    (module [Signal]).

    Modelling conventions.
    - A Python [str] is a Rocq [string]; the character tests and case
      mapping are the ASCII ones.
    - A Python [int] is a [Z].
    - A Python/NumPy float is a rational [Q]: comparisons are those of the
      values, arithmetic is exact (rounding, infinities and NaN are outside
      the model).  Statements that have to hold of the doubles as well use
      comparisons and the expressions of the source only, or carry the
      rounding as an explicit operation ([Signal.rounds]).  Signals and
      axes are lists of such floats, held in arrays of floats; [np.sqrt],
      which has no exact counterpart, is a parameter of what uses it.
    - The routines of NumPy, SciPy and Matplotlib that the library calls
      are modelled in [Np] after their documented behaviour.
    - A raised exception is a value of [Py.exn]; a function that can raise
      returns a [Py.result]. *)

From Stdlib Require Import ZArith QArith Qabs Qminmax Lia Lqa.
From Stdlib Require Import Ascii String DecimalString.
From Stdlib Require Decimal DecimalFacts DecimalPos DecimalZ.
From Stdlib Require Import Sorted.
From stdpp Require Import base option list strings gmap.

Local Open Scope string_scope.
Local Open Scope list_scope.

(** ** Python exceptions and the result monad *)

Module Py.

Inductive exn : Type :=
| ValueError (msg : string)
| TypeError (msg : string)
| IndexError
| UnboundLocalError (var : string)
| ZeroDivisionError.

Inductive result (A : Type) : Type :=
| Ok (a : A)
| Raise (e : exn).
Arguments Ok {A} a.
Arguments Raise {A} e.

Definition bind {A B} (m : result A) (k : A -> result B) : result B :=
  match m with
  | Ok a => k a
  | Raise e => Raise e
  end.

Fixpoint mapM {A B} (f : A -> result B) (l : list A) : result (list B) :=
  match l with
  | [] => Ok []
  | x :: l' => bind (f x) (fun y => bind (mapM f l') (fun ys => Ok (y :: ys)))
  end.

Definition raises {A} (m : result A) : Prop :=
  match m with Ok _ => False | Raise _ => True end.

(** [str(n)] for an integer. *)
Definition str_of_Z (n : Z) : string := NilEmpty.string_of_int (Z.to_int n).

(** [c.lower()] and [s.lower()]. *)
Definition lower_ascii (c : ascii) : ascii :=
  let n := nat_of_ascii c in
  if (65 <=? n)%nat && (n <=? 90)%nat then ascii_of_nat (n + 32) else c.

Fixpoint lower (s : string) : string :=
  match s with
  | EmptyString => EmptyString
  | String c s' => String (lower_ascii c) (lower s')
  end.

(** [s.startswith(p)]. *)
Fixpoint startswith (s p : string) : bool :=
  match p, s with
  | EmptyString, _ => true
  | String _ _, EmptyString => false
  | String a p', String b s' => Ascii.eqb a b && startswith s' p'
  end.

(** [s.endswith(p)]. *)
Definition endswith (s p : string) : bool :=
  let n := String.length s in
  let k := String.length p in
  (k <=? n)%nat && String.eqb (substring (n - k) k s) p.

(** [c.isdigit()] on an ASCII character, and [s.isdigit()]: every character
    is a digit and there is at least one. The strings of the model are
    strings of ASCII characters, on which the digits of [str.isdigit] are
    the characters 0 to 9; the other digits of Unicode are outside the
    model. *)
Definition is_digit (c : ascii) : bool :=
  let n := nat_of_ascii c in (48 <=? n)%nat && (n <=? 57)%nat.

Fixpoint all_digits (s : string) : bool :=
  match s with
  | EmptyString => true
  | String c s' => is_digit c && all_digits s'
  end.

Definition isdigit (s : string) : bool :=
  match s with
  | EmptyString => false
  | String _ _ => all_digits s
  end.

(** [s.replace(c, '', 1)]: the first occurrence of the character [c] is
    removed. *)
Fixpoint remove_first (c : ascii) (s : string) : string :=
  match s with
  | EmptyString => EmptyString
  | String a s' => if Ascii.eqb a c then s' else String a (remove_first c s')
  end.

(** Truth value of a string: [if s:] holds for a non-empty string. *)
Definition truthy (s : string) : bool :=
  match s with EmptyString => false | String _ _ => true end.

(** [s.replace(c, '')]: every occurrence of the character [c] is removed. *)
Fixpoint remove_all (c : ascii) (s : string) : string :=
  match s with
  | EmptyString => EmptyString
  | String a s' =>
      if Ascii.eqb a c then remove_all c s' else String a (remove_all c s')
  end.

(** [s[-k]] for [k >= 1]: the [k]-th character from the end. *)
Definition getitem_neg (s : string) (k : nat) : result ascii :=
  if (k <=? String.length s)%nat then
    match String.get (String.length s - k) s with
    | Some a => Ok a
    | None => Raise IndexError
    end
  else Raise IndexError.

(** Counting characters, for the statements on strings. *)
Fixpoint count_char (c : ascii) (s : string) : nat :=
  match s with
  | EmptyString => 0
  | String a s' => (if Ascii.eqb a c then 1 else 0) + count_char c s'
  end.

Fixpoint count_digits (s : string) : nat :=
  match s with
  | EmptyString => 0
  | String a s' => (if is_digit a then 1 else 0) + count_digits s'
  end.

Fixpoint only_chars (allowed : ascii -> bool) (s : string) : bool :=
  match s with
  | EmptyString => true
  | String a s' => allowed a && only_chars allowed s'
  end.

(** [s.isascii()]: every character is below 128. *)
Definition isascii (s : string) : bool :=
  only_chars (fun a => (nat_of_ascii a <? 128)%nat) s.

End Py.

(** ** thorpy/numtype.py *)

Module Numtype.
Import Py.

Definition str_is_float (numeric_string : string) : bool :=
  if truthy numeric_string then
    if isdigit (remove_first "-" (remove_first "." numeric_string))
    then true else false
  else false.

Definition str_is_int (numeric_string : string) : bool :=
  if truthy numeric_string then
    if isdigit (remove_first "-" numeric_string) then true else false
  else false.

Definition str_is_pos_float (numeric_string : string) : bool :=
  if truthy numeric_string then
    if isdigit (remove_first "." numeric_string) then true else false
  else false.

Definition str_is_pos_int (numeric_string : string) : bool :=
  if truthy numeric_string then
    if isdigit numeric_string then true else false
  else false.

End Numtype.

(** ** thornpy/utilities.py *)

Module Utilities.
Import Py.

(** [text.split(sep)] for a separator given explicitly: the occurrences of
    [sep] are found left to right without overlap; an empty separator is a
    [ValueError].  [split_go sep skip cur s] scans [s]; [cur] is the field
    read so far and [skip] counts the characters of a separator occurrence
    still to be stepped over. *)
Fixpoint split_go (sep : string) (skip : nat) (cur : string) (s : string)
  : list string :=
  match s with
  | EmptyString => [cur]
  | String c s' =>
      match skip with
      | S k => split_go sep k cur s'
      | O =>
          if startswith s sep
          then cur :: split_go sep (String.length sep - 1) EmptyString s'
          else split_go sep 0 (cur ++ String c EmptyString) s'
      end
  end.

Definition fields (sep s : string) : list string :=
  split_go sep 0 EmptyString s.

Definition split (s sep : string) : result (list string) :=
  match sep with
  | EmptyString => Raise (ValueError "empty separator")
  | String _ _ => Ok (fields sep s)
  end.

(** The default [delimiter=','] and [newline='\n']. *)
Definition default_delimiter : string := ",".
Definition default_newline : string := String (ascii_of_nat 10) EmptyString.

(** [[str(i+1) for i in range(n)]]. *)
Definition generic_headers (n : nat) : list string :=
  map (fun i => str_of_Z (Z.of_nat i + 1)) (seq 0 n).

(** The inner loop of [read_data_string]:
    [for header, value in zip(headers, values): line_data[header] = value],
    starting from the empty dictionary. *)
Definition line_data (headers values : list string) : gmap string string :=
  foldl (fun d hv => <[fst hv := snd hv]> d) ∅ (zip headers values).

(** The outer loop: one dictionary per line whose field count equals the
    number of headers; the other lines are passed over. *)
Fixpoint read_lines (delimiter : string) (headers : list string)
    (lines : list string) : result (list (gmap string string)) :=
  match lines with
  | [] => Ok []
  | line :: rest =>
      bind (split line delimiter) (fun fields =>
      if (length fields =? length headers)%nat then
        bind (split line delimiter) (fun values =>
        bind (read_lines delimiter headers rest) (fun data =>
        Ok (line_data headers values :: data)))
      else read_lines delimiter headers rest)
  end.

Definition read_data_string (text delimiter newline : string)
    (has_headerline : bool) : result (list (gmap string string)) :=
  bind (split text newline) (fun lines =>
  if has_headerline then
    match lines with
    | [] => Raise IndexError
    | first :: rest =>
        bind (split first delimiter) (fun headers =>
        read_lines delimiter headers rest)
    end
  else
    match lines with
    | [] => Raise IndexError
    | first :: _ =>
        bind (split first delimiter) (fun fields =>
        read_lines delimiter (generic_headers (length fields)) lines)
    end).

(** *** [num_to_ith] *)

Definition num_to_ith (num : Z) : result string :=
  if (num =? -1)%Z then Ok "last"
  else
    let value :=
      if (num <? -1)%Z then remove_all "-" (str_of_Z (num + 1))
      else str_of_Z num in
    bind (getitem_neg value 1) (fun last_digit =>
    bind (if (1 <? String.length value)%nat
          then bind (getitem_neg value 2) (fun c => Ok (Ascii.eqb c "1"))
          else Ok false) (fun teen =>
    let suffix :=
      if teen then "th"
      else if Ascii.eqb last_digit "1" then "st"
      else if Ascii.eqb last_digit "2" then "nd"
      else if Ascii.eqb last_digit "3" then "rd"
      else "th" in
    let suffix :=
      if (num <? -1)%Z then (suffix ++ " to last")%string else suffix in
    Ok (value ++ suffix)%string)).

(** The ordinal suffix of a number that is not negative, read off its
    value: "th" when the tens digit is 1, and otherwise by the units
    digit. *)
Definition ordinal_suffix (n : Z) : string :=
  if (10 <=? n)%Z && ((n / 10) mod 10 =? 1)%Z then "th"
  else if (n mod 10 =? 1)%Z then "st"
  else if (n mod 10 =? 2)%Z then "nd"
  else if (n mod 10 =? 3)%Z then "rd"
  else "th".

End Utilities.

(** ** NumPy and SciPy primitives used by thornpy/signal.py *)

Module Np.
Import Py.
Local Open Scope Q_scope.

(** [x < y] on floats. *)
Definition Qltb (x y : Q) : bool := negb (Qle_bool y x).

(** [a / b] on Python floats. *)
Definition py_div (a b : Q) : result Q :=
  if Qeq_bool b 0 then Raise ZeroDivisionError else Ok (a / b).

(** [l[i]] on a Python list, for an index that is not negative. *)
Definition getitem {A} (l : list A) (i : nat) : result A :=
  match l !! i with
  | Some x => Ok x
  | None => Raise IndexError
  end.

(** [l[-1]]. *)
Definition getitem_last {A} (l : list A) : result A :=
  match last l with
  | Some x => Ok x
  | None => Raise IndexError
  end.

(** Integer indexing of a one-dimensional array of length [n]: an index in
    [[0, n)] is itself, an index in [[-n, 0)] counts from the end, any other
    index is an [IndexError]. *)
Definition np_index (n : nat) (i : Z) : result nat :=
  let len := Z.of_nat n in
  if ((0 <=? i) && (i <? len))%Z then Ok (Z.to_nat i)
  else if ((- len <=? i) && (i <? 0))%Z then Ok (Z.to_nat (len + i))
  else Raise IndexError.

(** [a[i]] and [a[i] = v] on an array of floats. (An array made from
    Python integers only would hold integers and truncate a stored float;
    such signals are outside the model.) *)
Definition np_getitem (a : list Q) (i : Z) : result Q :=
  bind (np_index (length a) i) (fun k => Ok (nth k a 0)).

Definition np_setitem (a : list Q) (i : Z) (v : Q) : result (list Q) :=
  bind (np_index (length a) i) (fun k => Ok (<[k := v]> a)).

(** [np.mean]: the sum, accumulated from the left, over the length. *)
Definition np_sum (a : list Q) : Q := fold_left Qplus a 0.

Definition np_mean (a : list Q) : Q :=
  np_sum a / inject_Z (Z.of_nat (length a)).

(** [np.argmin]: the scan keeps the first smallest entry
    ([if (!(ip[i] >= mp))] replaces the running minimum); an empty array is
    a [ValueError]. *)
Fixpoint argmin_loop (mp : Q) (min_ind i : nat) (ip : list Q) : nat :=
  match ip with
  | [] => min_ind
  | v :: ip' =>
      if negb (Qle_bool mp v) then argmin_loop v i (S i) ip'
      else argmin_loop mp min_ind (S i) ip'
  end.

Definition np_argmin (a : list Q) : result nat :=
  match a with
  | [] => Raise (ValueError "attempt to get argmin of an empty sequence")
  | v :: a' => Ok (argmin_loop v 0 1 a')
  end.

(** [np.argmax] on a boolean array: the index of the first [True], and 0
    when no entry is [True]; an empty array is a [ValueError]. *)
Fixpoint first_true (i : nat) (a : list bool) : option nat :=
  match a with
  | [] => None
  | b :: a' => if b then Some i else first_true (S i) a'
  end.

Definition np_argmax_bool (a : list bool) : result nat :=
  match a with
  | [] => Raise (ValueError "attempt to get argmax of an empty sequence")
  | _ :: _ => Ok (default 0%nat (first_true 0 a))
  end.

(** [scipy.signal._peak_finding_utils._local_maxima_1d]: the midpoints of
    the plateaus that are strictly higher than the samples on both sides.
    The scan starts at index 1 and stops before the last index.
    [look_ahead] is the inner [while], [local_maxima_loop] the outer one;
    both take the number of iterations they may still run. *)
Fixpoint look_ahead (fuel : nat) (x : list Q) (i i_ahead i_max : nat) : nat :=
  match fuel with
  | O => i_ahead
  | S fuel' =>
      if (i_ahead <? i_max)%nat && Qeq_bool (nth i_ahead x 0) (nth i x 0)
      then look_ahead fuel' x i (S i_ahead) i_max
      else i_ahead
  end.

Fixpoint local_maxima_loop (fuel : nat) (x : list Q) (i i_max : nat)
  : list nat :=
  match fuel with
  | O => []
  | S fuel' =>
      if (i <? i_max)%nat then
        if Qltb (nth (i - 1) x 0) (nth i x 0) then
          let i_ahead := look_ahead (length x) x i (i + 1) i_max in
          if Qltb (nth i_ahead x 0) (nth i x 0) then
            let left_edge := i in
            let right_edge := (i_ahead - 1)%nat in
            ((left_edge + right_edge) / 2)%nat
              :: local_maxima_loop fuel' x (i_ahead + 1) i_max
          else local_maxima_loop fuel' x (i + 1) i_max
        else local_maxima_loop fuel' x (i + 1) i_max
      else []
  end.

Definition _local_maxima_1d (x : list Q) : list nat :=
  local_maxima_loop (length x) x 1 (length x - 1).

(** [scipy.signal._peak_finding._select_by_peak_threshold] with [tmax=None]:
    a peak is kept when the smaller of its two vertical distances to the
    neighbouring samples is at least [tmin]. *)
Definition _select_by_peak_threshold (x : list Q) (tmin : Q) (peak : nat)
  : bool :=
  Qle_bool tmin
    (Qmin (nth peak x 0 - nth (peak - 1) x 0)
          (nth peak x 0 - nth (peak + 1) x 0)).

(** [find_peaks(x, threshold=t)[0]]. *)
Definition find_peaks (x : list Q) (threshold : Q) : list Z :=
  map Z.of_nat
    (List.filter (_select_by_peak_threshold x threshold) (_local_maxima_1d x)).

(** A stand-in for [np.sqrt] with which the model can be run: the square
    root rounded down to a multiple of [1 / (den * 2^64)]; it is exact on
    the squares of rationals. *)
Definition sqrt_floor (q : Q) : Q :=
  Qmake (Z.sqrt (Qnum q * Zpos (Qden q) * 4 ^ 64))
        (Qden q * 2 ^ 64).

End Np.

(** ** thornpy/signal.py *)

Module Signal.
Import Py Np.
Local Open Scope Q_scope.

(** *** [step_function] *)

Definition step_function (index : list Q) (start init_val end_ final_val : Q)
  : result (list Q) :=
  let height := final_val - init_val in
  let step :=
    map (fun _ => init_val) (List.filter (fun ind => Qle_bool ind start) index) in
  bind (mapM (fun ind =>
          bind (py_div (ind - start) (end_ - start)) (fun r1 =>
          bind (py_div (ind - start) (end_ - start)) (fun r2 =>
          Ok (init_val + height * r1 ^ 2 * (3 - 2 * r2)))))
        (List.filter (fun ind => Qltb start ind && Qltb ind end_) index))
    (fun middle =>
  let step := step ++ middle in
  let step :=
    step ++ map (fun _ => final_val)
                (List.filter (fun ind => Qle_bool end_ ind) index) in
  Ok step).

(** *** [check_num_points] *)

(** [[2**e for e in range(100)][::-1]]. *)
Definition pow2_candidates : list Z :=
  rev (map (fun e => 2 ^ Z.of_nat e)%Z (seq 0 100)).

Definition msg_too_few_points (n_fft num : Z) : string :=
  "n_fft (" ++ str_of_Z n_fft
    ++ ") must be less than the number of points in the signal ("
    ++ str_of_Z num ++ ").".

Definition msg_try (n_fft num suggested_n : Z) : string :=
  msg_too_few_points n_fft num ++ " Try " ++ str_of_Z suggested_n ++ ".".

Fixpoint suggest_loop (num n_fft : Z) (candidates : list Z) : result unit :=
  match candidates with
  | [] => Raise (ValueError (msg_too_few_points n_fft num))
  | pow_2 :: rest =>
      if (num >=? pow_2)%Z then
        let suggested_n := pow_2 in
        Raise (ValueError (msg_try n_fft num suggested_n))
      else suggest_loop num n_fft rest
  end.

Definition check_num_points (num n_fft : Z) : result unit :=
  if (num <? n_fft)%Z then suggest_loop num n_fft pow2_candidates
  else Ok tt.

(** *** [get_window] *)

Inductive window_fn : Type := hann | hamming | blackman | boxcar.

Definition is_name (window : option string) (name : string) : bool :=
  match window with
  | Some w => String.eqb w name
  | None => false
  end.

Definition str_of_window (window : option string) : string :=
  match window with
  | Some w => w
  | None => "None"
  end.

Definition get_window (window : option string) : result window_fn :=
  if is_name window "hanning" then Ok hann
  else if is_name window "hamming" then Ok hamming
  else if is_name window "blackman" then Ok blackman
  else if is_name window "rectangular" || is_name window "boxcar"
          || match window with None => true | Some _ => false end
  then Ok boxcar
  else Raise (ValueError (str_of_window window ++ " not recognized as a window!")).

(** *** [_get_conversion_to_hz] *)

(** No branch assigns [input_to_hz] for a unit that passes none of the three
    tests; the [return] then fails on the unassigned local. *)
Definition _get_conversion_to_hz (input_unit : string) : result Q :=
  if String.eqb (lower input_unit) "rpm" then Ok (1 / 60)
  else if String.eqb (lower input_unit) "hz" then Ok 1
  else if startswith (lower input_unit) "deg"
          && (endswith (lower input_unit) "/s"
              || endswith (lower input_unit) "/sec")
  then Ok (1 / 360)
  else Raise (UnboundLocalError "input_to_hz").

(** Floating-point tolerance. The factors and the products with them are
    doubles in the source; an operation [fl] rounds with a relative error of
    at most [unit_roundoff], which is what IEEE double arithmetic does when
    nothing overflows or underflows. *)
Definition unit_roundoff : Q := 1 # 2 ^ 53.

Definition rounds (fl : Q -> Q) : Prop :=
  forall x : Q, Qabs (fl x - x) <= unit_roundoff * Qabs x.

(** *** [_find_nearest] and [_order_cut_plot] *)

Definition _find_nearest (array : list Q) (value : Q) : result nat :=
  np_argmin (map (fun a => Qabs (a - value)) array).

(** What one [ax.plot(input_sig, amp)] with its labels leaves on an axes.
    The figure is the list of its axes; the rendering itself is outside the
    model. *)
Record axes : Type := {
  line_x : list Q;
  line_y : list Q;
  xlabel : string;
  ylabel : option string;
  title_order : Q
}.

Definition input_to_hz_default : Q := 1 / 60.

(** The body of the loop over the orders. *)
Definition order_cut (input_sig freqs : list Q) (Pxx : list (list Q))
    (input_to_hz : Q) (input_unit : string) (y_label : option string)
    (order : Q) : result axes :=
  let freqs_to_plot :=
    map (fun in_sig => in_sig * input_to_hz * order) input_sig in
  bind (mapM (fun f => _find_nearest freqs f) freqs_to_plot) (fun i_freqs =>
  bind (mapM (fun ij => bind (getitem Pxx (fst ij)) (fun row =>
                        getitem row (snd ij)))
             (zip i_freqs (seq 0 (length input_sig)))) (fun amp =>
  Ok {| line_x := input_sig; line_y := amp; xlabel := input_unit;
        ylabel := y_label; title_order := order |})).

(** The second component of [plt.subplots(nrows=n)]. Matplotlib squeezes the
    array of axes: one row gives the [Axes] object itself, and only two or
    more rows give an array of them. *)
Inductive subplots_axes : Type :=
| single_axes
| axes_array (n : nat).

(** No row at all is refused when the grid is laid out. The wording of the
    messages below is Matplotlib's and Python's and differs between their
    versions; the kind of the exception does not. *)
Definition plt_subplots (nrows : nat) : result subplots_axes :=
  match nrows with
  | O => Raise (ValueError "Number of rows must be a positive integer, not 0")
  | 1%nat => Ok single_axes
  | _ => Ok (axes_array nrows)
  end.

(** [zip(axes, orders)] iterates over [axes]; an [Axes] object is not
    iterable. The axes of an array are named by their position. *)
Definition iter_axes (a : subplots_axes) : result (list nat) :=
  match a with
  | single_axes => Raise (TypeError "'Axes' object is not iterable")
  | axes_array n => Ok (seq 0 n)
  end.

Definition _order_cut_plot (input_sig freqs : list Q)
    (Pxx : list (list Q)) (orders : list Q) (input_to_hz : Q)
    (input_unit : string) (y_label : option string) : result (list axes) :=
  bind (plt_subplots (length orders)) (fun axs =>
  bind (iter_axes axs) (fun axs =>
  mapM (fun ax_order =>
          order_cut input_sig freqs Pxx input_to_hz input_unit y_label
                    (snd ax_order))
       (zip axs orders))).

(** *** The order-chart branch of [fft_watefall] *)

(** [input_sig_rpm = [abs(v*input_conversion_factor) for v in input_sig]]. *)
Definition input_sig_rpm (input_sig : list Q) (input_conversion_factor : Q)
  : list Q :=
  map (fun v => Qabs (v * input_conversion_factor)) input_sig.

(** [input_bins = [abs(input_sig_rpm[np.argmax(time>=t_bn+time[0])])
                   for t_bn in bins]]. *)
Definition input_bins (time input_sig_rpm bins : list Q) : result (list Q) :=
  mapM (fun t_bn =>
          bind (getitem time 0) (fun t0 =>
          bind (np_argmax_bool (map (fun t => Qle_bool (t_bn + t0) t) time))
            (fun k =>
          bind (getitem input_sig_rpm k) (fun v => Ok (Qabs v)))))
       bins.

Definition order_chart (time input_sig : list Q) (input_conversion_factor : Q)
    (bins : list Q) : result (list Q * list Q) :=
  if negb (length input_sig =? length time)%nat then
    Raise (ValueError
             "Input signal must be the same lenght as the response signel.")
  else
    let input_sig_rpm := input_sig_rpm input_sig input_conversion_factor in
    bind (input_bins time input_sig_rpm bins) (fun input_bins =>
    Ok (input_sig_rpm, input_bins)).

(** *** The spectrogram call of [fft_watefall] *)

(** The keyword arguments of [ax2.specgram]; an argument that the call does
    not pass is [None]. *)
Record specgram_kwargs : Type := {
  NFFT : Z;
  Fs : Q;
  noverlap : Q;
  detrend : string;
  mode : string;
  scale : string;
  cmap : string;
  window : option window_fn
}.

(** Matplotlib's [specgram] applies [mlab.window_hanning] when it is given
    no [window]. *)
Definition specgram_window (kw : specgram_kwargs) : window_fn :=
  default hann (window kw).

Section Cleaner.

(** [np.sqrt], the one primitive of the cleaner that has no exact
    counterpart on rationals; everything below holds for any choice. *)
Variable np_sqrt : Q -> Q.

(** [np.std]: the square root of the mean squared deviation. *)
Definition np_std (a : list Q) : Q :=
  let m := np_mean a in
  np_sqrt (np_mean (map (fun v => Qabs (v - m) ^ 2) a)).

(** *** [_clean_sig] *)

Fixpoint clean_loop (sig : list Q) (i_pks : list Z) : result (list Q) :=
  match i_pks with
  | [] => Ok sig
  | i_pk :: rest =>
      bind (np_getitem sig (i_pk - 1)) (fun left =>
      bind (np_getitem sig (i_pk + 1)) (fun right =>
      bind (np_setitem sig i_pk (np_mean [left; right])) (fun sig' =>
      clean_loop sig' rest)))
  end.

Definition _clean_sig (sig : list Q) (n_sigma : Q)
  : result (list Q * list Z) :=
  let i_pks := find_peaks (map Qabs sig) (np_std sig * n_sigma) in
  bind (clean_loop sig i_pks) (fun sig' => Ok (sig', i_pks)).

(** *** [fft_watefall] up to its spectrogram call

    The function has no [window] parameter and passes none on. *)
Definition fft_watefall_specgram (time sig : list Q) (percent_overlap : Q)
    (n_fft : Z) (response_conversion_factor : option Q) (psd : bool)
    (z_scale : string) (clean_sig : option Q)
  : result (list Q * specgram_kwargs) :=
  bind (match clean_sig with
        | Some n_sigma =>
            bind (_clean_sig sig n_sigma) (fun r => Ok (fst r))
        | None => Ok sig
        end) (fun sig =>
  let sig :=
    match response_conversion_factor with
    | Some c => map (fun v => v * c) sig
    | None => sig
    end in
  bind (check_num_points (Z.of_nat (length time)) n_fft) (fun _ =>
  bind (getitem_last time) (fun t_last =>
  bind (getitem time 0) (fun t_first =>
  bind (py_div (t_last - t_first)
               (inject_Z (Z.of_nat (length time) - 1))) (fun t_s =>
  bind (py_div 1 t_s) (fun f_s =>
  Ok (sig,
      {| NFFT := n_fft; Fs := f_s;
         noverlap := percent_overlap / 100 * inject_Z n_fft;
         detrend := "mean";
         mode := if psd then "psd" else "magnitude";
         scale := z_scale; cmap := "nipy_spectral";
         window := None |}))))))).

End Cleaner.

(** *** [_add_order_lines]

    The two ends of the line drawn for each order. [x_max] and [y_max] are
    the upper limits [ax.get_xlim()[-1]] and [ax.get_ylim()[-1]] of the
    axes, which [ax.autoscale(False)] keeps fixed while the lines are
    drawn. *)
Record order_line : Type := {
  x_coords : Q * Q;
  y_coords : Q * Q;
  annotation : Q
}.

Definition _add_order_lines (x_max y_max : Q) (orders : list Q)
    (input_unit : string) : result (list order_line) :=
  bind (_get_conversion_to_hz input_unit) (fun input_to_hz =>
  mapM (fun order =>
          let x_coords := (0, x_max) in
          let y_coords := (0, snd x_coords * input_to_hz * order) in
          bind (if Qltb y_max (snd y_coords) then
                  bind (py_div y_max input_to_hz) (fun q =>
                  bind (py_div q order) (fun x_end =>
                  Ok ((0, x_end), (0, y_max))))
                else Ok (x_coords, y_coords)) (fun xy =>
          Ok {| x_coords := fst xy; y_coords := snd xy;
                annotation := order |}))
       orders).

(** *** The rows of the order waterfall in [fft_watefall]

    [l[i:j]] for indices that are not negative, and the rows
    [Pxx[i_min:i_max]] that are handed to the contour plot. *)
Definition py_slice {A} (i j : nat) (l : list A) : list A :=
  take (j - i) (drop i l).

Definition order_waterfall_rows {A} (freqs : list Q)
    (f_range : option (list Q)) (rows : list A) : result (list A) :=
  bind (match f_range with
        | Some r =>
            bind (getitem r 0) (fun f_lo =>
            bind (np_argmax_bool (map (fun f => Qle_bool f_lo f) freqs))
              (fun i_min =>
            bind (getitem r 1) (fun f_hi =>
            bind (np_argmax_bool (map (fun f => Qle_bool f_hi f) freqs))
              (fun i_max =>
            Ok (i_min, i_max)))))
        | None => Ok (length freqs, length freqs)
        end) (fun i =>
  Ok (py_slice (fst i) (snd i) rows)).

(** *** Vocabulary of the statements *)

(** The value of the step at one point of the independent variable. *)
Definition step_value (start init_val end_ final_val ind : Q) : Q :=
  if Qle_bool ind start then init_val
  else if Qltb ind end_ then
    init_val
    + (final_val - init_val) * ((ind - start) / (end_ - start)) ^ 2
      * (3 - 2 * ((ind - start) / (end_ - start)))
  else final_val.

(** [m] at index [r] is a first minimum of [a]. *)
Definition first_min (a : list Q) (r : nat) (m : Q) : Prop :=
  a !! r = Some m
  /\ (forall j v, a !! j = Some v -> m <= v)
  /\ (forall j v, (j < r)%nat -> a !! j = Some v -> m < v).

(** Row [i] of the frequency axis is nearest to [f]: no entry is closer,
    and every entry before it is strictly farther. *)
Definition nearest_row (freqs : list Q) (f : Q) (i : nat) : Prop :=
  exists f_i : Q,
    freqs !! i = Some f_i
    /\ (forall i' f', freqs !! i' = Some f' -> Qabs (f_i - f) <= Qabs (f' - f))
    /\ (forall i' f', (i' < i)%nat -> freqs !! i' = Some f' ->
                      Qabs (f_i - f) < Qabs (f' - f)).

(** The indices of [l] lie in [[lo, hi)], ascend, and any two of them are at
    least two apart. *)
Fixpoint spaced (lo hi : nat) (l : list nat) : Prop :=
  match l with
  | [] => True
  | m :: l' => (lo <= m)%nat /\ (m < hi)%nat /\ spaced (m + 2) hi l'
  end.

(** The signal with the samples at [pks] replaced by the mean of their two
    neighbours in [sig]. *)
Definition replaced (sig : list Q) (pks : list nat) (j : nat) : Q :=
  if bool_decide (j ∈ pks)
  then np_mean [nth (j - 1) sig 0; nth (j + 1) sig 0]
  else nth j sig 0.

(** Sample [i] is the first one whose time is at least [t]. *)
Definition first_at_or_after (time : list Q) (t : Q) (i : nat) : Prop :=
  exists t_i : Q,
    time !! i = Some t_i
    /\ t <= t_i
    /\ (forall j t_j, (j < i)%nat -> time !! j = Some t_j -> t_j < t).

End Signal.

(** * Properties *)

(** ** Numeric-string classifiers *)

Module NumtypeSpec.
Import Py Numtype.

Lemma isdigit_all_digits s : isdigit s = true -> all_digits s = true.
Proof. destruct s; [discriminate | trivial]. Qed.

Lemma isdigit_truthy s : isdigit s = true -> truthy s = true.
Proof. destruct s; [discriminate | reflexivity]. Qed.

(** Removing a character that is no digit leaves a string of digits as it
    is. *)
Lemma remove_first_digits c s :
  is_digit c = false -> all_digits s = true -> remove_first c s = s.
Proof.
  intros Hc. induction s as [|a s IH]; simpl; [reflexivity|].
  intros [Ha Hs]%andb_prop.
  destruct (Ascii.eqb_spec a c) as [->|_]; [congruence|].
  now rewrite IH.
Qed.

(** If what is left after removing the first [c] is all digits, the string
    holds no other non-digit character [d]. *)
Lemma remove_first_other c d s :
  c <> d -> is_digit d = false ->
  all_digits (remove_first c s) = true -> remove_first d s = s.
Proof.
  intros Hcd Hd. induction s as [|a s IH]; simpl; [reflexivity|].
  destruct (Ascii.eqb_spec a c) as [->|Hac].
  - intros Hs. destruct (Ascii.eqb_spec c d) as [?|_]; [contradiction|].
    now rewrite (remove_first_digits d s Hd Hs).
  - simpl. intros [Ha Hs]%andb_prop.
    destruct (Ascii.eqb_spec a d) as [->|_]; [congruence|].
    now rewrite IH.
Qed.

Lemma pos_int_is_int s : str_is_pos_int s = true -> str_is_int s = true.
Proof.
  unfold str_is_pos_int, str_is_int.
  destruct (truthy s); [|discriminate].
  destruct (isdigit s) eqn:Hd; [intros _|discriminate].
  rewrite remove_first_digits by (reflexivity || now apply isdigit_all_digits).
  now rewrite Hd.
Qed.

Lemma pos_int_is_pos_float s :
  str_is_pos_int s = true -> str_is_pos_float s = true.
Proof.
  unfold str_is_pos_int, str_is_pos_float.
  destruct (truthy s); [|discriminate].
  destruct (isdigit s) eqn:Hd; [intros _|discriminate].
  rewrite remove_first_digits by (reflexivity || now apply isdigit_all_digits).
  now rewrite Hd.
Qed.

Lemma int_is_float s : str_is_int s = true -> str_is_float s = true.
Proof.
  unfold str_is_int, str_is_float.
  destruct (truthy s); [|discriminate].
  destruct (isdigit (remove_first "-" s)) eqn:Hd; [intros _|discriminate].
  rewrite (remove_first_other "-" "." s); [now rewrite Hd|discriminate|reflexivity|].
  now apply isdigit_all_digits.
Qed.

(** C10. A string accepted by [str_is_pos_int] is accepted by [str_is_int]
    and by [str_is_pos_float]; a string accepted by [str_is_int] is accepted
    by [str_is_float]; the four classifiers reject the empty string. *)
Theorem classifier_hierarchy :
  forall s : string,
    (str_is_pos_int s = true ->
       str_is_int s = true /\ str_is_pos_float s = true)
    /\ (str_is_int s = true -> str_is_float s = true)
    /\ str_is_float "" = false
    /\ str_is_int "" = false
    /\ str_is_pos_float "" = false
    /\ str_is_pos_int "" = false.
Proof.
  intros s. repeat split; try reflexivity.
  - now apply pos_int_is_int.
  - now apply pos_int_is_pos_float.
  - apply int_is_float.
Qed.

(** The inclusions are proper and the classes are inhabited. *)
Example classifier_samples :
  str_is_pos_int "42" = true
  /\ str_is_int "-42" = true /\ str_is_pos_int "-42" = false
  /\ str_is_pos_float "4.2" = true /\ str_is_int "4.2" = false
  /\ str_is_float "-4.2" = true /\ str_is_pos_float "-4.2" = false.
Proof. repeat split. Qed.

End NumtypeSpec.

(** ** Delimited text to dictionaries *)

Module UtilitiesSpec.
Import Py Utilities.

Lemma split_nonempty s sep : sep <> "" -> split s sep = Ok (fields sep s).
Proof. destruct sep; [congruence | reflexivity]. Qed.

(** The splitter always yields at least one field. *)
Lemma split_go_nonempty sep skip cur s : split_go sep skip cur s <> [].
Proof.
  revert skip cur. induction s as [|c s IH]; intros skip cur;
    [discriminate|].
  destruct skip; [|apply IH].
  change (split_go sep 0 cur (String c s))
    with (if startswith (String c s) sep
          then cur :: split_go sep (String.length sep - 1) EmptyString s
          else split_go sep 0 (cur ++ String c EmptyString) s).
  destruct (startswith (String c s) sep); [discriminate | apply IH].
Qed.

(** The keys written by the inner loop, on top of those already there. *)
Lemma dom_foldl_insert (hs vs : list string) (d : gmap string string) :
  length hs = length vs ->
  dom (foldl (fun d hv => <[fst hv := snd hv]> d) d (zip hs vs))
  = dom d ∪ list_to_set hs.
Proof.
  revert vs d. induction hs as [|h hs IH]; intros [|v vs] d Hlen;
    simpl in *; try discriminate.
  - now rewrite (right_id_L ∅ (∪)).
  - rewrite IH by congruence.
    now rewrite dom_insert_L, (comm_L (∪) {[h]}), (assoc_L (∪)).
Qed.

Lemma dom_line_data (headers values : list string) :
  length values = length headers ->
  dom (line_data headers values) = list_to_set headers.
Proof.
  intros Hlen. unfold line_data.
  rewrite dom_foldl_insert by congruence.
  now rewrite dom_empty_L, (left_id_L ∅ (∪)).
Qed.

(** The dictionaries that the loop over the lines builds. *)
Lemma read_lines_ok delimiter headers lines :
  delimiter <> "" ->
  read_lines delimiter headers lines
  = Ok (map (fun line => line_data headers (fields delimiter line))
            (List.filter
               (fun line =>
                  (length (fields delimiter line) =? length headers)%nat)
               lines)).
Proof.
  intros Hd. induction lines as [|line rest IH]; simpl; [reflexivity|].
  rewrite split_nonempty by assumption. simpl.
  destruct (_ =? _)%nat; simpl; rewrite IH; reflexivity.
Qed.

(** The generated headers: as many as asked for, the one at position [i]
    being the decimal writing of [i + 1]. *)
Lemma length_generic_headers (n : nat) : length (generic_headers n) = n.
Proof. unfold generic_headers. now rewrite length_map, length_seq. Qed.

Lemma generic_headers_lookup (n i : nat) :
  i < n -> generic_headers n !! i = Some (str_of_Z (Z.of_nat i + 1)).
Proof.
  intros Hi. unfold generic_headers.
  rewrite list_lookup_fmap, lookup_seq_lt by assumption. reflexivity.
Qed.

(** C9. With non-empty separators [read_data_string] returns a list of
    dictionaries; the headers are the fields of the first line, or the
    strings "1", "2", ... for as many fields as the first line has when
    there is no header line: the header at position [i] is then the decimal
    writing of [i + 1], and a first line of three fields gives "1", "2" and
    "3"; every returned dictionary has exactly the headers as its keys; and
    the result holds one dictionary for each data line that has as many
    fields as there are headers, in order, the other lines being left out
    without an error. *)
Theorem read_data_string_rows :
  forall (text delimiter newline : string) (has_headerline : bool),
    delimiter <> "" -> newline <> "" ->
    exists (first : string) (rest headers : list string)
           (data : list (gmap string string)),
      fields newline text = first :: rest
      /\ headers = (if has_headerline then fields delimiter first
                    else generic_headers (length (fields delimiter first)))
      /\ (has_headerline = false ->
          length headers = length (fields delimiter first)
          /\ (forall i : nat,
                i < length (fields delimiter first) ->
                headers !! i = Some (str_of_Z (Z.of_nat i + 1)))
          /\ (length (fields delimiter first) = 3 ->
              headers = ["1"; "2"; "3"]))
      /\ read_data_string text delimiter newline has_headerline = Ok data
      /\ (forall d, d ∈ data -> dom d = list_to_set headers)
      /\ data = map (fun line => line_data headers (fields delimiter line))
                    (List.filter
                       (fun line =>
                          (length (fields delimiter line) =? length headers)%nat)
                       (if has_headerline then rest else first :: rest)).
Proof.
  intros text delimiter newline has_headerline Hd Hn.
  destruct (fields newline text) as [|first rest] eqn:Hlines.
  { exfalso. exact (split_go_nonempty _ _ _ _ Hlines). }
  set (headers := if has_headerline then fields delimiter first
                  else generic_headers (length (fields delimiter first))).
  exists first, rest, headers.
  eexists. split; [reflexivity|]. split; [reflexivity|].
  split.
  { intros ->. subst headers. split; [apply length_generic_headers|].
    split; [intros i Hi; now apply generic_headers_lookup|].
    now intros ->. }
  assert (Hrun : read_data_string text delimiter newline has_headerline
                 = Ok (map (fun line => line_data headers (fields delimiter line))
                        (List.filter
                           (fun line =>
                              (length (fields delimiter line)
                               =? length headers)%nat)
                           (if has_headerline then rest else first :: rest)))).
  { unfold read_data_string. rewrite split_nonempty, Hlines by assumption.
    subst headers. cbn [bind].
    destruct has_headerline; rewrite split_nonempty by assumption;
      cbn [bind]; now apply read_lines_ok. }
  split; [exact Hrun|]. split; [|reflexivity].
  intros d [line [-> Hin]]%list_elem_of_fmap.
  apply list_elem_of_In, filter_In in Hin. destruct Hin as [_ Hk].
  apply dom_line_data. now apply Nat.eqb_eq in Hk.
Qed.

(** The theorem at a text of four lines without a header line, one of them
    short. *)
Lemma read_data_string_rows_witness :
  let text := ("x,y,z" ++ default_newline ++ "1,2,3" ++ default_newline
               ++ "4" ++ default_newline ++ "5,6,7")%string in
  exists (first : string) (rest headers : list string)
         (data : list (gmap string string)),
    fields default_newline text = first :: rest
    /\ headers = generic_headers (length (fields default_delimiter first))
    /\ (false = false ->
        length headers = length (fields default_delimiter first)
        /\ (forall i : nat,
              i < length (fields default_delimiter first) ->
              headers !! i = Some (str_of_Z (Z.of_nat i + 1)))
        /\ (length (fields default_delimiter first) = 3 ->
            headers = ["1"; "2"; "3"]))
    /\ read_data_string text default_delimiter default_newline false = Ok data
    /\ (forall d, d ∈ data -> dom d = list_to_set headers)
    /\ data = map (fun line => line_data headers (fields default_delimiter line))
                  (List.filter
                     (fun line =>
                        (length (fields default_delimiter line)
                         =? length headers)%nat)
                     (first :: rest)).
Proof.
  intros text.
  apply (read_data_string_rows text default_delimiter default_newline false);
    discriminate.
Defined.

(** The short line "3" is left out; the other two lines are kept, in
    order. *)
Example read_data_string_sample :
  read_data_string
    ("a,b" ++ default_newline ++ "1,2" ++ default_newline
     ++ "3" ++ default_newline ++ "4,5")%string
    default_delimiter default_newline true
  = Ok [ <["b" := "2"]> (<["a" := "1"]> ∅);
         <["b" := "5"]> (<["a" := "4"]> ∅) ].
Proof. vm_compute. reflexivity. Qed.

(** Without a header line the first line is data as well, under the
    generated headers. *)
Example read_data_string_generic :
  read_data_string ("x,y" ++ default_newline ++ "7")%string
    default_delimiter default_newline false
  = Ok [ <["2" := "y"]> (<["1" := "x"]> ∅) ].
Proof. vm_compute. reflexivity. Qed.

End UtilitiesSpec.

(** ** Shared facts on the result monad and on comparisons *)

Module PyFacts.
Import Py Np.
Local Open Scope Q_scope.

Lemma Qle_bool_reflect x y : reflect (x <= y) (Qle_bool x y).
Proof. apply iff_reflect. symmetry. apply Qle_bool_iff. Qed.

Lemma Qltb_reflect x y : reflect (x < y) (Qltb x y).
Proof.
  unfold Qltb. destruct (Qle_bool_reflect y x); constructor; lra.
Qed.

Lemma Qeq_bool_reflect x y : reflect (x == y) (Qeq_bool x y).
Proof. apply iff_reflect. symmetry. apply Qeq_bool_iff. Qed.

(** A traversal succeeds when each call does, and then applies the function
    pointwise. *)
Lemma mapM_ok {A B} (f : A -> result B) (g : A -> B) (l : list A) :
  (forall x, In x l -> f x = Ok (g x)) -> mapM f l = Ok (map g l).
Proof.
  induction l as [|x l IH]; intros H; simpl; [reflexivity|].
  rewrite (H x) by now left. simpl.
  rewrite IH by (intros; apply H; now right). reflexivity.
Qed.

Lemma mapM_inv {A B} (f : A -> result B) (l : list A) (ys : list B) :
  mapM f l = Ok ys -> Forall2 (fun x y => f x = Ok y) l ys.
Proof.
  revert ys. induction l as [|x l IH]; intros ys; simpl.
  - intros [= <-]. constructor.
  - destruct (f x) as [y|e] eqn:Hx; simpl; [|discriminate].
    destruct (mapM f l) as [ys'|e]; simpl; [|discriminate].
    intros [= <-]. constructor; [assumption | now apply IH].
Qed.

Lemma mapM_total {A B} (f : A -> result B) (l : list A) :
  (forall x, In x l -> exists y, f x = Ok y) -> exists ys, mapM f l = Ok ys.
Proof.
  induction l as [|x l IH]; intros H; simpl; [now eexists|].
  destruct (H x) as [y Hy]; [now left|]. rewrite Hy. simpl.
  destruct IH as [ys Hys]; [intros; apply H; now right|].
  rewrite Hys. simpl. now eexists.
Qed.

Lemma getitem_Some {A} (l : list A) i x : l !! i = Some x -> getitem l i = Ok x.
Proof. unfold getitem. now intros ->. Qed.

End PyFacts.

(** ** The step function *)

Module StepSpec.
Import Py Np Signal PyFacts.
Local Open Scope Q_scope.

(** The quotient of the middle branch is defined wherever it is asked
    for. *)
Lemma middle_defined start end_ ind :
  Qltb start ind && Qltb ind end_ = true ->
  py_div (ind - start) (end_ - start) = Ok ((ind - start) / (end_ - start)).
Proof.
  intros [H1 H2]%andb_prop. unfold py_div.
  destruct (Qltb_reflect start ind); [|discriminate].
  destruct (Qltb_reflect ind end_); [|discriminate].
  destruct (Qeq_bool_reflect (end_ - start) 0); [lra | reflexivity].
Qed.

(** The shape of the output: the three groups, one after the other. *)
Lemma step_function_groups index start init_val end_ final_val :
  step_function index start init_val end_ final_val
  = Ok (map (fun _ => init_val)
            (List.filter (fun ind => Qle_bool ind start) index)
        ++ map (fun ind =>
                  init_val
                  + (final_val - init_val)
                    * ((ind - start) / (end_ - start)) ^ 2
                    * (3 - 2 * ((ind - start) / (end_ - start))))
               (List.filter (fun ind => Qltb start ind && Qltb ind end_) index)
        ++ map (fun _ => final_val)
               (List.filter (fun ind => Qle_bool end_ ind) index)).
Proof.
  unfold step_function.
  erewrite mapM_ok; [simpl; now rewrite <- app_assoc|].
  intros ind [_ Hmid]%filter_In.
  rewrite (middle_defined _ _ _ Hmid). reflexivity.
Qed.

(** Counting the three groups when the ramp has a positive width. *)
Lemma groups_partition index start end_ :
  start < end_ ->
  (length (List.filter (fun ind => Qle_bool ind start) index)
   + length (List.filter (fun ind => Qltb start ind && Qltb ind end_) index)
   + length (List.filter (fun ind => Qle_bool end_ ind) index)
   = length index)%nat.
Proof.
  intros Hlt. induction index as [|ind index IH]; simpl; [reflexivity|].
  destruct (Qle_bool_reflect ind start), (Qltb_reflect start ind),
    (Qltb_reflect ind end_), (Qle_bool_reflect end_ ind);
    simpl; try lia; lra.
Qed.

(** Counting them when the ramp has no width: the middle group is empty and
    the samples at the common value are in both outer groups. *)
Lemma groups_overlap index start end_ :
  start == end_ ->
  List.filter (fun ind => Qltb start ind && Qltb ind end_) index = []
  /\ (length (List.filter (fun ind => Qle_bool ind start) index)
      + length (List.filter (fun ind => Qle_bool end_ ind) index)
      = length index
        + length (List.filter (fun ind => Qeq_bool ind start) index))%nat.
Proof.
  intros Heq. induction index as [|ind index [IH1 IH2]]; simpl;
    [split; reflexivity|].
  destruct (Qle_bool_reflect ind start), (Qltb_reflect start ind),
    (Qltb_reflect ind end_), (Qle_bool_reflect end_ ind),
    (Qeq_bool_reflect ind start);
    simpl; try (split; [assumption | lia]); lra.
Qed.

(** C8. [step_function] always returns a list. When [start < end] its
    length is that of [index]. When [start] equals [end] it is the initial
    value for every element at most [start] followed by the final value for
    every element at least [end], so an element equal to the common value
    is emitted twice and the output is longer than the input by the number
    of such elements; the docstring's call returns six elements for an
    index of five. *)
Theorem step_function_length :
  forall (index : list Q) (start init_val end_ final_val : Q),
    exists out : list Q,
      step_function index start init_val end_ final_val = Ok out
      /\ (start < end_ -> length out = length index)
      /\ (start == end_ ->
            out = map (fun _ => init_val)
                      (List.filter (fun ind => Qle_bool ind start) index)
                  ++ map (fun _ => final_val)
                         (List.filter (fun ind => Qle_bool end_ ind) index)
            /\ length out
               = (length index
                  + length (List.filter (fun ind => Qeq_bool ind start) index))%nat)
      /\ step_function [2; 3; 7 # 2; 4; 5] 3 0 3 1 = Ok [0; 0; 1; 1; 1; 1].
Proof.
  intros index start init_val end_ final_val.
  eexists. split; [apply step_function_groups|].
  split; [|split].
  - intros Hlt. rewrite !length_app, !length_map.
    pose proof (groups_partition index start end_ Hlt). lia.
  - intros Heq. destruct (groups_overlap index start end_ Heq) as [Hmid Hlen].
    rewrite Hmid. simpl. split; [reflexivity|].
    rewrite !length_app, !length_map. exact Hlen.
  - reflexivity.
Qed.

(** With a ramp of positive width the output has the length of the input,
    here on the ramp from 3 to 4. *)
Example step_function_ramp :
  step_function [2; 3; 7 # 2; 4; 5] 3 0 4 1 = Ok [0; 0; 4 # 8; 1; 1].
Proof. reflexivity. Qed.

End StepSpec.

(** ** Window-size validation *)

Module CheckSpec.
Import Py Np Signal PyFacts.
Local Open Scope Z_scope.

(** The candidates for the exponents below [n], largest first. *)
Lemma candidates_step (n : nat) :
  rev (map (fun e => 2 ^ Z.of_nat e) (seq 0 (S n)))
  = 2 ^ Z.of_nat n :: rev (map (fun e => 2 ^ Z.of_nat e) (seq 0 n)).
Proof. now rewrite seq_S, map_app, rev_app_distr. Qed.

(** The scan stops at the power of two just below [num]. *)
Lemma suggest_loop_largest (num n_fft : Z) (n : nat) :
  1 <= num < 2 ^ Z.of_nat n ->
  suggest_loop num n_fft (rev (map (fun e => 2 ^ Z.of_nat e) (seq 0 n)))
  = Raise (ValueError (msg_try n_fft num (2 ^ Z.log2 num))).
Proof.
  induction n as [|n IH]; intros Hnum.
  - simpl in Hnum. lia.
  - rewrite candidates_step. cbn [suggest_loop].
    destruct (Z.geb_spec num (2 ^ Z.of_nat n)) as [Hge|Hlt].
    + replace (Z.log2 num) with (Z.of_nat n); [reflexivity|].
      symmetry. apply Z.log2_unique; [lia|].
      replace (Z.of_nat n + 1) with (Z.of_nat (S n)) by lia. lia.
    + apply IH. lia.
Qed.

(** Below 1 no candidate fits. *)
Lemma suggest_loop_none (num n_fft : Z) (n : nat) :
  num < 1 ->
  suggest_loop num n_fft (rev (map (fun e => 2 ^ Z.of_nat e) (seq 0 n)))
  = Raise (ValueError (msg_too_few_points n_fft num)).
Proof.
  intros Hnum. induction n as [|n IH]; [reflexivity|].
  rewrite candidates_step. cbn [suggest_loop].
  destruct (Z.geb_spec num (2 ^ Z.of_nat n)) as [Hge|Hlt]; [|exact IH].
  pose proof (Z.pow_pos_nonneg 2 (Z.of_nat n)). lia.
Qed.

(** From [2^100] on the scan stops at its first candidate. *)
Lemma suggest_loop_top (num n_fft : Z) :
  2 ^ 100 <= num ->
  suggest_loop num n_fft pow2_candidates
  = Raise (ValueError (msg_try n_fft num (2 ^ 99))).
Proof.
  intros Hnum. unfold pow2_candidates.
  change 100%nat with (S 99). rewrite candidates_step. cbn [suggest_loop].
  change (Z.of_nat 99) with 99.
  destruct (Z.geb_spec num (2 ^ 99)) as [Hge|Hlt]; [reflexivity|lia].
Qed.

(** C2, as the code has it. No error is raised when [n_fft] is at most the
    sample count, and a [ValueError] is raised when it exceeds it. For a
    sample count from 1 up to (not including) [2^100] the message suggests
    the largest power of two that is at most the sample count, which for a
    single sample is 1; below one sample the message carries no suggestion;
    from [2^100] samples on, the suggestion is the first candidate,
    [2^99]. *)
Theorem check_num_points_spec :
  forall num n_fft : Z,
    (n_fft <= num -> check_num_points num n_fft = Ok tt)
    /\ (num < n_fft -> 1 <= num < 2 ^ 100 ->
          check_num_points num n_fft
          = Raise (ValueError (msg_try n_fft num (2 ^ Z.log2 num)))
          /\ 2 ^ Z.log2 num <= num < 2 ^ (Z.log2 num + 1))
    /\ (num < n_fft -> num < 1 ->
          check_num_points num n_fft
          = Raise (ValueError (msg_too_few_points n_fft num)))
    /\ (num < n_fft -> 2 ^ 100 <= num ->
          check_num_points num n_fft
          = Raise (ValueError (msg_try n_fft num (2 ^ 99)))).
Proof.
  intros num n_fft. unfold check_num_points.
  destruct (Z.ltb_spec num n_fft) as [Hlt|Hge]; repeat split; try lia.
  - apply (suggest_loop_largest num n_fft 100). lia.
  - apply Z.log2_spec. lia.
  - apply Z.log2_spec. lia.
  - intros _ Hnum. apply (suggest_loop_none num n_fft 100 Hnum).
  - intros _ Hnum. now apply suggest_loop_top.
Qed.

(** With a single sample, fewer than two, a power of two still fits and the
    message suggests it; the message carries no suggestion only from zero
    samples down. *)
Lemma check_num_points_one_sample :
  check_num_points 1 2
  = Raise (ValueError
      "n_fft (2) must be less than the number of points in the signal (1). Try 1.")
  /\ check_num_points 0 2
     = Raise (ValueError
         "n_fft (2) must be less than the number of points in the signal (0).").
Proof. split; reflexivity. Qed.

Example check_num_points_samples :
  check_num_points 1024 1024 = Ok tt
  /\ check_num_points 1000 1024
     = Raise (ValueError
         "n_fft (1024) must be less than the number of points in the signal (1000). Try 512.").
Proof. split; reflexivity. Qed.

End CheckSpec.

(** ** Window selection and unit conversion *)

Module ConfigSpec.
Import Py Np Signal PyFacts.
Local Open Scope Q_scope.

(** The spectrogram call never carries a window. *)
Lemma fft_watefall_passes_no_window np_sqrt time sig percent_overlap n_fft
    response_conversion_factor psd z_scale clean_sig sig' kw :
  fft_watefall_specgram np_sqrt time sig percent_overlap n_fft
    response_conversion_factor psd z_scale clean_sig = Ok (sig', kw) ->
  window kw = None.
Proof.
  unfold fft_watefall_specgram, bind. intros H.
  repeat match type of H with
         | match ?m with _ => _ end = _ => destruct m; try discriminate
         end.
  now injection H as _ <-.
Qed.

(** C6, as the code has it. [get_window] maps "hanning", "hamming" and
    "blackman" to the Hann, Hamming and Blackman windows, maps
    "rectangular", "boxcar" and an unspecified window to the rectangular
    one, and raises a [ValueError] for any other name. The spectrogram call
    of [fft_watefall] does not use it: whatever the arguments, no window is
    passed on. *)
Theorem get_window_spec :
  get_window (Some "hanning"%string) = Ok hann
  /\ get_window (Some "hamming"%string) = Ok hamming
  /\ get_window (Some "blackman"%string) = Ok blackman
  /\ get_window (Some "rectangular"%string) = Ok boxcar
  /\ get_window (Some "boxcar"%string) = Ok boxcar
  /\ get_window None = Ok boxcar
  /\ (forall w : string,
        ~ In w ["hanning"; "hamming"; "blackman"; "rectangular"; "boxcar"]%string ->
        get_window (Some w)
        = Raise (ValueError (w ++ " not recognized as a window!")))
  /\ (forall np_sqrt time sig percent_overlap n_fft
             response_conversion_factor psd z_scale clean_sig sig' kw,
        fft_watefall_specgram np_sqrt time sig percent_overlap n_fft
          response_conversion_factor psd z_scale clean_sig = Ok (sig', kw) ->
        window kw = None).
Proof.
  repeat split; try reflexivity.
  - intros w Hw. unfold get_window, is_name.
    repeat match goal with
           | |- context [String.eqb w ?s] =>
               destruct (String.eqb_spec w s) as [->|?];
               [exfalso; apply Hw; simpl; tauto|]
           end.
    reflexivity.
  - intros. eapply fft_watefall_passes_no_window; eassumption.
Qed.

(** With every option left at its default and four samples, the spectrogram
    is called without a window, so that the window applied is Matplotlib's
    default, Hann, while the selector gives the rectangular window for an
    unspecified name. *)
Lemma fft_watefall_default_window :
  fft_watefall_specgram sqrt_floor [0; 1; 2; 3] [1; 2; 3; 4] 50 2 (Some 1)
    false "linear" None
  = Ok ([1 * 1; 2 * 1; 3 * 1; 4 * 1],
        {| NFFT := 2; Fs := 1 / ((3 - 0) / inject_Z (4 - 1));
           noverlap := 50 / 100 * inject_Z 2;
           detrend := "mean"; mode := "magnitude"; scale := "linear";
           cmap := "nipy_spectral"; window := None |})
  /\ specgram_window
       {| NFFT := 2; Fs := 1 / ((3 - 0) / inject_Z (4 - 1));
          noverlap := 50 / 100 * inject_Z 2;
          detrend := "mean"; mode := "magnitude"; scale := "linear";
          cmap := "nipy_spectral"; window := None |} = hann
  /\ get_window None = Ok boxcar.
Proof. repeat split. Qed.

(** One rounding after another: if [x] is within the relative distance [k]
    of [t] and [y] is [x] rounded with relative error [u], then [y] is
    within [k + u * (1 + k)] of [t]. *)
Lemma rounding_step (u k x y t : Q) :
  0 <= u -> 0 <= k ->
  Qabs (x - t) <= k * Qabs t ->
  Qabs (y - x) <= u * Qabs x ->
  Qabs (y - t) <= (k + u * (1 + k)) * Qabs t.
Proof.
  intros Hu Hk Hxt Hyx.
  assert (H1 : Qabs (y - t) <= Qabs (y - x) + Qabs (x - t)).
  { assert (E : y - t == (y - x) + (x - t)) by ring.
    rewrite E. apply Qabs_triangle. }
  assert (H2 : Qabs x <= Qabs t + Qabs (x - t)).
  { assert (E : x == t + (x - t)) by ring.
    rewrite E at 1. apply Qabs_triangle. }
  assert (H3 : Qabs x * u <= ((1 + k) * Qabs t) * u).
  { apply Qmult_le_compat_r; [lra | exact Hu]. }
  lra.
Qed.

(** A value in RPM taken to Hz and multiplied by 60, every operation being
    rounded: the division [1/60], the product with the factor and the
    product with 60. With a relative error of at most [unit_roundoff] per
    operation the result is the value again within a relative error of
    [2^-50]. *)
Lemma rpm_round_trip_error (fl : Q -> Q) (v : Q) :
  rounds fl ->
  Qabs (fl (fl (v * fl (1 # 60)) * 60) - v) <= (1 # 2 ^ 50) * Qabs v.
Proof.
  intros Hfl.
  assert (Hu : 0 <= unit_roundoff) by discriminate.
  pose proof (Qabs_nonneg v) as Hv.
  (* the rounded factor *)
  pose proof (Hfl (1 # 60)) as Ha.
  set (a := fl (1 # 60)) in *.
  assert (H1 : Qabs (v * a - v * (1 # 60))
               <= unit_roundoff * Qabs (v * (1 # 60))).
  { assert (E : v * a - v * (1 # 60) == (a - (1 # 60)) * v) by ring.
    rewrite E, !Qabs_Qmult.
    apply (Qmult_le_compat_r _ _ (Qabs v)) in Ha; [|exact Hv].
    lra. }
  (* the rounded product with the factor *)
  pose proof (rounding_step _ _ _ _ _ Hu Hu H1 (Hfl (v * a))) as H2.
  set (b := fl (v * a)) in *.
  assert (H3 : Qabs (b * 60 - v)
               <= (unit_roundoff + unit_roundoff * (1 + unit_roundoff))
                  * Qabs v).
  { assert (E : b * 60 - v == (b - v * (1 # 60)) * 60) by ring.
    rewrite E, Qabs_Qmult.
    rewrite Qabs_Qmult in H2.
    change (Qabs 60) with 60. change (Qabs (1 # 60)) with (1 # 60) in H2.
    lra. }
  (* the rounded product with 60 *)
  assert (Hk : 0 <= unit_roundoff + unit_roundoff * (1 + unit_roundoff))
    by discriminate.
  pose proof (rounding_step _ _ _ _ _ Hu Hk H3 (Hfl (b * 60))) as H4.
  eapply Qle_trans; [exact H4|].
  apply Qmult_le_compat_r; [|exact Hv].
  apply Qle_bool_iff. vm_compute. reflexivity.
Qed.

(** C4, as the code has it. The factor to Hz is 1/60 for "rpm", 1 for "hz"
    and 1/360 for every unit that starts with "deg" and ends with "/s" or
    "/sec", the comparison being made on the lower-cased unit; this covers
    the four spellings "deg/s", "degs/s", "deg/sec" and "degs/sec". A value
    in RPM taken to Hz and multiplied by 60 is the value again within
    floating-point tolerance: when every operation is rounded with a
    relative error of at most [2^-53], the result is within a relative
    error of [2^-50] of the value. *)
Theorem conversion_to_hz_spec :
  forall input_unit : string,
    let u := lower input_unit in
    (u = "rpm"%string -> _get_conversion_to_hz input_unit = Ok (1 # 60))
    /\ (u = "hz"%string -> _get_conversion_to_hz input_unit = Ok 1)
    /\ (u <> "rpm"%string -> u <> "hz"%string ->
        startswith u "deg" = true ->
        endswith u "/s" = true \/ endswith u "/sec" = true ->
        _get_conversion_to_hz input_unit = Ok (1 # 360))
    /\ (In u ["deg/s"; "degs/s"; "deg/sec"; "degs/sec"]%string ->
        _get_conversion_to_hz input_unit = Ok (1 # 360))
    /\ (forall (fl : Q -> Q) (v factor : Q),
          (forall x : Q, Qabs (fl x - x) <= (1 # 2 ^ 53) * Qabs x) ->
          _get_conversion_to_hz "RPM" = Ok factor ->
          Qabs (fl (fl (v * fl factor) * 60) - v) <= (1 # 2 ^ 50) * Qabs v).
Proof.
  intros input_unit u. unfold _get_conversion_to_hz. fold u.
  repeat split.
  - now intros ->.
  - now intros ->.
  - intros H1 H2 H3 H4.
    destruct (String.eqb_spec u "rpm"); [contradiction|].
    destruct (String.eqb_spec u "hz"); [contradiction|].
    rewrite H3. destruct H4 as [-> | ->]; simpl; [reflexivity|].
    now rewrite orb_true_r.
  - simpl. intros [<-|[<-|[<-|[<-|[]]]]]; reflexivity.
  - intros fl v factor Hfl Hfactor.
    assert (factor = (1 # 60)) as -> by (cbv in Hfactor; congruence).
    now apply rpm_round_trip_error.
Qed.

(** The tolerance at 1200 RPM, with operations that round nothing. *)
Lemma conversion_to_hz_spec_witness :
  Qabs ((fun x => x) ((fun x => x) (1200 * (fun x => x) (1 # 60)) * 60) - 1200)
  <= (1 # 2 ^ 50) * Qabs 1200.
Proof.
  destruct (conversion_to_hz_spec "RPM") as (_ & _ & _ & _ & Htrip).
  apply (Htrip (fun x => x) 1200 (1 # 60)); [|reflexivity].
  intros x.
  assert (E : x - x == 0) by ring.
  rewrite E. pose proof (Qabs_nonneg x) as Hx.
  apply Qmult_le_0_compat; [discriminate | exact Hx].
Defined.

(** For a unit that passes none of the three tests no branch assigns the
    result, and the call fails on the unassigned local. *)
Lemma conversion_to_hz_unassigned (input_unit : string) :
  let u := lower input_unit in
  u <> "rpm"%string -> u <> "hz"%string ->
  ~ (startswith u "deg" = true
     /\ (endswith u "/s" = true \/ endswith u "/sec" = true)) ->
  _get_conversion_to_hz input_unit = Raise (UnboundLocalError "input_to_hz").
Proof.
  intros u H1 H2 H3. unfold _get_conversion_to_hz. fold u.
  destruct (String.eqb_spec u "rpm"); [contradiction|].
  destruct (String.eqb_spec u "hz"); [contradiction|].
  destruct (startswith u "deg") eqn:Hs; simpl; [|reflexivity].
  destruct (endswith u "/s") eqn:He1; simpl; [exfalso; tauto|].
  destruct (endswith u "/sec") eqn:He2; simpl; [exfalso; tauto|reflexivity].
Qed.

(** The unit "degrees/s" is none of the listed spellings and still gets the
    factor 1/360; "furlongs/fortnight" gets no factor, the failure being
    that of the unassigned local and not a [ValueError]. *)
Lemma conversion_to_hz_other_units :
  _get_conversion_to_hz "degrees/s" = Ok (1 # 360)
  /\ _get_conversion_to_hz "furlongs/fortnight"
     = Raise (UnboundLocalError "input_to_hz").
Proof. split; reflexivity. Qed.

Example conversion_to_hz_samples :
  _get_conversion_to_hz "RPM" = Ok (1 # 60)
  /\ _get_conversion_to_hz "Hz" = Ok 1
  /\ _get_conversion_to_hz "Deg/Sec" = Ok (1 # 360)
  /\ 1200 * (1 # 60) == 20.
Proof. repeat split. Qed.

End ConfigSpec.

(** ** Time bins and input-speed bins *)

Module BinsSpec.
Import Py Np Signal PyFacts.
Local Open Scope Q_scope.

(** [first_true] finds the first [true], counted from [i0]. *)
Lemma first_true_found (a : list bool) (i0 i : nat) :
  a !! i = Some true ->
  (forall j, (j < i)%nat -> a !! j = Some false) ->
  first_true i0 a = Some (i0 + i)%nat.
Proof.
  revert i0 i. induction a as [|b a IH]; intros i0 i Hi Hbefore;
    [discriminate|].
  destruct i as [|i]; simpl in *.
  - injection Hi as ->. f_equal. lia.
  - specialize (Hbefore 0%nat ltac:(lia)) as Hb. injection Hb as ->.
    rewrite (IH (S i0) i Hi); [f_equal; lia|].
    intros j Hj. apply (Hbefore (S j)). lia.
Qed.

Lemma first_true_bound (a : list bool) (i0 r : nat) :
  first_true i0 a = Some r -> (i0 <= r < i0 + length a)%nat.
Proof.
  revert i0. induction a as [|b a IH]; intros i0; simpl; [discriminate|].
  destruct b.
  - intros [= <-]. lia.
  - intros H%IH. lia.
Qed.

(** The index that [np.argmax] gives on a non-empty boolean array is one of
    its indices. *)
Lemma np_argmax_bool_total (a : list bool) :
  a <> [] -> exists k, np_argmax_bool a = Ok k /\ (k < length a)%nat.
Proof.
  destruct a as [|b a]; [congruence|]. intros _. unfold np_argmax_bool.
  eexists. split; [reflexivity|].
  destruct (first_true 0 (b :: a)) as [r|] eqn:Hr; simpl.
  - apply first_true_bound in Hr. simpl in Hr. lia.
  - lia.
Qed.

Lemma np_argmax_bool_first (a : list bool) (i : nat) :
  a !! i = Some true ->
  (forall j, (j < i)%nat -> a !! j = Some false) ->
  np_argmax_bool a = Ok i.
Proof.
  intros Hi Hb. unfold np_argmax_bool.
  destruct a as [|b a]; [discriminate|].
  now rewrite (first_true_found (b :: a) 0 i Hi Hb).
Qed.




(** The bins at 0.5, 1.5 and 2.5 s take the speed of the samples at 1, 2
    and 3 s; a bin past the last sample falls back on the first sample. *)
Example order_chart_sample :
  order_chart [0; 1; 2; 3] [-360; 720; 1080; 1440] (60 / 360)
              [1 # 2; 3 # 2; 5 # 2; 7 # 2]
  = Ok ([21600 # 360; 43200 # 360; 64800 # 360; 86400 # 360],
        [43200 # 360; 64800 # 360; 86400 # 360; 21600 # 360]).
Proof. reflexivity. Qed.

(** A bin at 1.1 s takes the sample at 2 s, the first one not before it,
    and not the sample at 1 s, which is nearer. *)
Example first_at_or_after_sample :
  first_at_or_after [0; 1; 2; 3] ((11 # 10) + 0) 2
  /\ order_chart [0; 1; 2; 3] [-360; 720; 1080; 1440] (60 / 360) [11 # 10]
     = Ok ([21600 # 360; 43200 # 360; 64800 # 360; 86400 # 360],
           [64800 # 360]).
Proof.
  split; [|reflexivity].
  exists 2. split; [reflexivity|]. split; [now vm_compute|].
  intros [|[|j]] t_j Hj; [intros [= <-]; reflexivity
                         |intros [= <-]; reflexivity | lia].
Qed.

End BinsSpec.

(** ** The order-line locator *)

Module LocatorSpec.
Import Py Np Signal PyFacts.
Local Open Scope Q_scope.

(** The scan keeps a first minimum of the part already read. *)
Lemma argmin_loop_first_min (pre ip : list Q) (mp : Q) (min_ind : nat) :
  first_min pre min_ind mp ->
  exists m, first_min (pre ++ ip) (argmin_loop mp min_ind (length pre) ip) m.
Proof.
  revert pre mp min_ind.
  induction ip as [|v ip IH]; intros pre mp min_ind Hpre; simpl.
  - rewrite app_nil_r. now exists mp.
  - destruct Hpre as [Hat [Hall Hstrict]].
    replace (pre ++ v :: ip) with ((pre ++ [v]) ++ ip)
      by now rewrite <- app_assoc.
    replace (S (length pre)) with (length (pre ++ [v]))
      by (rewrite length_app; simpl; lia).
    destruct (Qle_bool_reflect mp v) as [Hle|Hgt]; simpl; apply IH.
    + split; [|split].
      * now apply lookup_app_l_Some.
      * intros j w [Hw|[_ Hw]]%lookup_app_Some; [now apply (Hall j)|].
        destruct (j - length pre)%nat; [|discriminate].
        injection Hw as <-. exact Hle.
      * intros j w Hj [Hw|[Hge _]]%lookup_app_Some;
          [now apply (Hstrict j)|].
        apply lookup_lt_Some in Hat. lia.
    + split; [|split].
      * rewrite lookup_app_r by lia. now rewrite Nat.sub_diag.
      * intros j w [Hw|[_ Hw]]%lookup_app_Some.
        -- specialize (Hall j w Hw). lra.
        -- destruct (j - length pre)%nat; [|discriminate].
           injection Hw as <-. lra.
      * intros j w Hj [Hw|[Hge _]]%lookup_app_Some; [|lia].
        specialize (Hall j w Hw). lra.
Qed.

Lemma np_argmin_first_min (a : list Q) :
  a <> [] -> exists r m, np_argmin a = Ok r /\ first_min a r m.
Proof.
  destruct a as [|v a]; [congruence|]. intros _.
  destruct (argmin_loop_first_min [v] a v 0) as [m Hm].
  - split; [reflexivity|]. split.
    + intros [|j] w Hw; [|discriminate]. injection Hw as <-. lra.
    + intros j w Hj. lia.
  - exists (argmin_loop v 0 1 a), m. split; [reflexivity | exact Hm].
Qed.

(** [_find_nearest] returns the nearest row. *)
Lemma _find_nearest_nearest (freqs : list Q) (value : Q) :
  freqs <> [] ->
  exists i, _find_nearest freqs value = Ok i /\ nearest_row freqs value i.
Proof.
  intros Hne. unfold _find_nearest.
  destruct (np_argmin_first_min (map (fun a => Qabs (a - value)) freqs))
    as [r [m [Hr [Hat [Hall Hstrict]]]]].
  { destruct freqs; [congruence | discriminate]. }
  exists r. split; [exact Hr|].
  rewrite list_lookup_fmap in Hat.
  destruct (freqs !! r) as [f_r|] eqn:Hfr; [|discriminate].
  change (Some (Qabs (f_r - value)) = Some m) in Hat.
  assert (Hm : m = Qabs (f_r - value)) by congruence.
  subst m. exists f_r. split; [exact Hfr|]. split.
  - intros i' f' Hf'. apply (Hall i').
    now rewrite list_lookup_fmap, Hf'.
  - intros i' f' Hlt Hf'. apply (Hstrict i'); [assumption|].
    now rewrite list_lookup_fmap, Hf'.
Qed.

(** The nearest row depends on the value of the frequency only. *)
Lemma nearest_row_value (freqs : list Q) (f g : Q) (i : nat) :
  f == g -> nearest_row freqs f i -> nearest_row freqs g i.
Proof.
  intros Hfg [f_i [Hat [Hall Hstrict]]]. exists f_i.
  split; [assumption|]. split.
  - intros i' f' Hf'. rewrite <- Hfg. now apply (Hall i').
  - intros i' f' Hlt Hf'. rewrite <- Hfg. now apply (Hstrict i').
Qed.

(** One order: the plotted line pairs each speed bin with the matrix value
    in the nearest row. *)
Lemma order_cut_located (input_sig freqs : list Q) (Pxx : list (list Q))
    (input_to_hz : Q) (input_unit : string) (y_label : option string)
    (order : Q) :
  freqs <> [] ->
  length Pxx = length freqs ->
  Forall (fun row => length row = length input_sig) Pxx ->
  exists ax,
    order_cut input_sig freqs Pxx input_to_hz input_unit y_label order = Ok ax
    /\ line_x ax = input_sig
    /\ length (line_y ax) = length input_sig
    /\ (forall j speed,
          input_sig !! j = Some speed ->
          exists i row amp,
            nearest_row freqs (speed * input_to_hz * order) i
            /\ Pxx !! i = Some row
            /\ row !! j = Some amp
            /\ line_y ax !! j = Some amp).
Proof.
  intros Hne Hrows Hcols. unfold order_cut.
  destruct (mapM_total (fun f => _find_nearest freqs f)
              (map (fun in_sig => in_sig * input_to_hz * order) input_sig))
    as [i_freqs Hi].
  { intros f _. destruct (_find_nearest_nearest freqs f Hne) as [i [-> _]].
    now eexists. }
  rewrite Hi. cbn [bind]. apply mapM_inv in Hi.
  assert (Hlen_i : length i_freqs = length input_sig).
  { apply Forall2_length in Hi. now rewrite length_map in Hi. }
  assert (Hrow : forall j i, i_freqs !! j = Some i ->
            exists speed row amp,
              input_sig !! j = Some speed
              /\ nearest_row freqs (speed * input_to_hz * order) i
              /\ Pxx !! i = Some row /\ row !! j = Some amp).
  { intros j i Hj.
    destruct (Forall2_lookup_r _ _ _ _ _ Hi Hj) as [f [Hf Hrun]].
    rewrite list_lookup_fmap in Hf.
    destruct (input_sig !! j) as [speed|] eqn:Hs; [|discriminate].
    injection Hf as <-.
    destruct (_find_nearest_nearest freqs (speed * input_to_hz * order) Hne)
      as [i' [Hi' Hnear]].
    assert (i' = i) as -> by congruence.
    destruct Hnear as [f_i [Hat Hmin]].
    destruct (lookup_lt_is_Some_2 Pxx i) as [row Hrow].
    { rewrite Hrows. now apply lookup_lt_Some in Hat. }
    destruct (lookup_lt_is_Some_2 row j) as [amp Hamp].
    { rewrite Forall_forall in Hcols.
      rewrite (Hcols row)
        by (eapply list_elem_of_lookup_2; eassumption).
      now apply lookup_lt_Some in Hs. }
    exists speed, row, amp. repeat split; try assumption.
    now exists f_i. }
  destruct (mapM_total
              (fun ij : nat * nat =>
                 bind (getitem Pxx (fst ij)) (fun row => getitem row (snd ij)))
              (zip i_freqs (seq 0 (length input_sig)))) as [amp Hamp].
  { intros [i j] Hin. apply list_elem_of_In, list_elem_of_lookup in Hin.
    destruct Hin as [k Hk]. apply lookup_zip_with_Some in Hk.
    destruct Hk as [i0 [j0 [Heq [Hki Hkj]]]].
    injection Heq as -> ->.
    apply lookup_seq in Hkj. destruct Hkj as [Hj0 _]. simpl in Hj0. subst j0.
    destruct (Hrow k i0 Hki) as [speed [row [a [_ [_ [Hr Ha]]]]]].
    exists a. cbn [fst snd]. rewrite (getitem_Some _ _ _ Hr). cbn [bind].
    now apply getitem_Some. }
  rewrite Hamp. cbn [bind]. eexists. split; [reflexivity|]. cbn.
  apply mapM_inv in Hamp.
  assert (Hlen_a : length amp = length input_sig).
  { apply Forall2_length in Hamp. rewrite <- Hamp, length_zip_with, length_seq.
    lia. }
  split; [reflexivity|]. split; [assumption|].
  intros j speed Hs.
  destruct (lookup_lt_is_Some_2 i_freqs j) as [i Hj].
  { rewrite Hlen_i. now apply lookup_lt_Some in Hs. }
  destruct (Hrow j i Hj) as [speed' [row [a [Hs' [Hnear [Hr Ha]]]]]].
  assert (speed' = speed) as -> by congruence.
  exists i, row, a. repeat split; try assumption.
  assert (Hz : zip i_freqs (seq 0 (length input_sig)) !! j = Some (i, j)).
  { apply lookup_zip_with_Some. exists i, j. repeat split; [assumption|].
    apply lookup_seq. split; [reflexivity|]. now apply lookup_lt_Some in Hs. }
  destruct (Forall2_lookup_l _ _ _ _ _ Hamp Hz) as [a' [Ha' Hrun]].
  cbn [fst snd] in Hrun. rewrite (getitem_Some _ _ _ Hr) in Hrun.
  cbn [bind] in Hrun. rewrite (getitem_Some _ _ _ Ha) in Hrun.
  congruence.
Qed.

(** With one axes per order the loop visits every order. *)
Lemma mapM_zip_axes {A B} (f : A -> result B) (l : list A) (start : nat) :
  mapM (fun ax_x : nat * A => f (snd ax_x)) (zip (seq start (length l)) l)
  = mapM f l.
Proof.
  revert start. induction l as [|x l IH]; intros start; simpl;
    [reflexivity|].
  now rewrite IH.
Qed.

(** With two or more requested orders [plt.subplots] hands back one axes per
    order and [_order_cut_plot] returns one plotted line per order. The line
    of an order pairs every speed bin with the matrix value found in that
    bin's column at the located row, the row whose distance to the expected
    frequency (the bin's speed times the factor to Hz times the order) is
    the first minimum of the distances. *)
Lemma order_cut_plot_two_or_more (input_sig freqs : list Q)
    (Pxx : list (list Q)) (orders : list Q) (input_to_hz : Q)
    (input_unit : string) (y_label : option string) :
  (2 <= length orders)%nat ->
  freqs <> [] ->
  length Pxx = length freqs ->
  Forall (fun row => length row = length input_sig) Pxx ->
  exists fig : list axes,
    _order_cut_plot input_sig freqs Pxx orders input_to_hz input_unit y_label
    = Ok fig
    /\ length fig = length orders
    /\ (forall k order,
          orders !! k = Some order ->
          exists ax,
            fig !! k = Some ax
            /\ line_x ax = input_sig
            /\ length (line_y ax) = length input_sig
            /\ (forall j speed,
                  input_sig !! j = Some speed ->
                  exists i row amp,
                    nearest_row freqs (speed * input_to_hz * order) i
                    /\ Pxx !! i = Some row
                    /\ row !! j = Some amp
                    /\ line_y ax !! j = Some amp)).
Proof.
  intros Hlen Hne Hrows Hcols. unfold _order_cut_plot.
  assert (Hsub : plt_subplots (length orders)
                 = Ok (axes_array (length orders))).
  { destruct orders as [|o1 [|o2 orders]]; simpl in Hlen; [lia | lia|].
    reflexivity. }
  rewrite Hsub. cbn [bind iter_axes]. rewrite mapM_zip_axes.
  destruct (mapM_total
              (order_cut input_sig freqs Pxx input_to_hz input_unit y_label)
              orders) as [fig Hfig].
  { intros order _.
    destruct (order_cut_located input_sig freqs Pxx input_to_hz input_unit
                y_label order Hne Hrows Hcols) as [ax [Hax _]].
    now exists ax. }
  exists fig. split; [exact Hfig|]. apply mapM_inv in Hfig.
  split; [symmetry; eapply Forall2_length; eassumption|].
  intros k order Hk.
  destruct (Forall2_lookup_l _ _ _ _ _ Hfig Hk) as [ax [Hk' Hrun]].
  destruct (order_cut_located input_sig freqs Pxx input_to_hz input_unit
              y_label order Hne Hrows Hcols) as [ax' [Hax Hspec]].
  assert (ax' = ax) as -> by congruence.
  exists ax. split; [exact Hk' | exact Hspec].
Qed.

(** C1. A request for a single order, the claim's own case of order 1, does
    not return an order cut: [plt.subplots(nrows=1)] hands back one [Axes]
    object and not an array, and [zip(axes, orders)] raises [TypeError] on
    it before any row is located. This holds whatever the speed bins, the
    frequency axis and the matrix are; with no order at all the layout of
    the figure is already refused. On the claim's input, one bin at 600 RPM
    and order 1 on a 4 Hz axis, the body of the loop alone would locate the
    row nearest to 10 Hz and return the pair of the bin and that row's
    value, and with a second order the call does return that line. *)
Theorem order_cut_plot_single_order :
  forall (input_sig freqs : list Q) (Pxx : list (list Q)) (order : Q)
         (input_to_hz : Q) (input_unit : string) (y_label : option string),
    (exists msg,
       _order_cut_plot input_sig freqs Pxx [order] input_to_hz input_unit
         y_label = Raise (TypeError msg))
    /\ (exists msg,
          _order_cut_plot input_sig freqs Pxx [] input_to_hz input_unit
            y_label = Raise (ValueError msg))
    /\ _find_nearest [0; 4; 8; 12; 16] (600 * input_to_hz_default * 1)
       = Ok 2%nat
    /\ order_cut [600] [0; 4; 8; 12; 16] [[1]; [3]; [5]; [7]; [9]]
         input_to_hz_default "rpm" None 1
       = Ok {| line_x := [600]; line_y := [5]; xlabel := "rpm";
               ylabel := None; title_order := 1 |}
    /\ _order_cut_plot [600] [0; 4; 8; 12; 16] [[1]; [3]; [5]; [7]; [9]]
         [1; 2] input_to_hz_default "rpm" None
       = Ok [ {| line_x := [600]; line_y := [5]; xlabel := "rpm";
                 ylabel := None; title_order := 1 |};
              {| line_x := [600]; line_y := [9]; xlabel := "rpm";
                 ylabel := None; title_order := 2 |} ].
Proof.
  intros input_sig freqs Pxx order input_to_hz input_unit y_label.
  split; [eexists; reflexivity|].
  split; [eexists; reflexivity|].
  split; [reflexivity|]. split; reflexivity.
Qed.

(** Two speed bins and two orders. At 600 RPM and order 1 the expected
    frequency is 10 Hz; rows 2 and 3 (8 and 12 Hz) are equally near and the
    lower one is located. *)
Example order_cut_plot_sample :
  _order_cut_plot [600; 1200] [0; 4; 8; 12; 16]
    [[1; 2]; [3; 4]; [5; 6]; [7; 8]; [9; 10]] [1; 2]
    input_to_hz_default "rpm" None
  = Ok [ {| line_x := [600; 1200]; line_y := [5; 10]; xlabel := "rpm";
            ylabel := None; title_order := 1 |};
         {| line_x := [600; 1200]; line_y := [9; 10]; xlabel := "rpm";
            ylabel := None; title_order := 2 |} ].
Proof. reflexivity. Qed.

End LocatorSpec.

(** ** The signal cleaner *)

Module CleanerSpec.
Import Py Np Signal PyFacts.
Local Open Scope Q_scope.

Lemma spaced_weaken (lo lo' hi : nat) (l : list nat) :
  (lo <= lo')%nat -> spaced lo' hi l -> spaced lo hi l.
Proof. destruct l; simpl; [trivial|]. intros ? (? & ? & ?). repeat split; (lia || assumption). Qed.

Lemma spaced_filter (P : nat -> bool) (lo hi : nat) (l : list nat) :
  spaced lo hi l -> spaced lo hi (List.filter P l).
Proof.
  revert lo. induction l as [|m l IH]; intros lo; simpl; [trivial|].
  intros (Hlo & Hhi & Hrest). destruct (P m); simpl.
  - repeat split; try assumption. now apply IH.
  - apply IH. apply (spaced_weaken lo (m + 2)); [lia | assumption].
Qed.

Lemma spaced_range (lo hi : nat) (l : list nat) (m : nat) :
  spaced lo hi l -> In m l -> (lo <= m < hi)%nat.
Proof.
  revert lo. induction l as [|a l IH]; intros lo; simpl; [tauto|].
  intros (Hlo & Hhi & Hrest) [->|Hin]; [lia|].
  specialize (IH _ Hrest Hin). lia.
Qed.

(** The inner loop stops between its start and [i_max]. *)
Lemma look_ahead_bounds (fuel : nat) (x : list Q) (i i_ahead i_max : nat) :
  (i_ahead <= i_max)%nat ->
  (i_ahead <= look_ahead fuel x i i_ahead i_max <= i_max)%nat.
Proof.
  revert i_ahead. induction fuel as [|fuel IH]; intros i_ahead Hle; simpl;
    [lia|].
  destruct (Nat.ltb_spec i_ahead i_max); simpl; [|lia].
  destruct (Qeq_bool _ _); [|lia].
  specialize (IH (S i_ahead) ltac:(lia)). lia.
Qed.

(** The plateau midpoints come out in ascending order, at least two apart,
    from the current index on and before [i_max]. *)
Lemma local_maxima_spaced (fuel : nat) (x : list Q) (i i_max : nat) :
  spaced i i_max (local_maxima_loop fuel x i i_max).
Proof.
  revert i. induction fuel as [|fuel IH]; intros i; cbn [local_maxima_loop];
    [exact I|].
  destruct (Nat.ltb_spec i i_max) as [Hlt|]; [|exact I].
  destruct (Qltb _ _).
  - pose proof (look_ahead_bounds (length x) x i (i + 1) i_max ltac:(lia))
      as Hb.
    set (i_ahead := look_ahead (length x) x i (i + 1) i_max) in *.
    cbv zeta. destruct (Qltb _ _).
    + assert (Hmid : (i <= (i + (i_ahead - 1)) / 2 <= i_ahead - 1)%nat).
      { split; [apply Nat.div_le_lower_bound
               | apply Nat.Div0.div_le_upper_bound]; lia. }
      cbn [spaced]. repeat split; [lia | lia |].
      apply (spaced_weaken _ (i_ahead + 1)); [lia | apply IH].
    + apply (spaced_weaken _ (i + 1)); [lia | apply IH].
  - apply (spaced_weaken _ (i + 1)); [lia | apply IH].
Qed.

(** Both loops have run to their end: more iterations change nothing. *)
Lemma look_ahead_fuel (f1 f2 : nat) (x : list Q) (i i_ahead i_max : nat) :
  (i_max - i_ahead <= f1)%nat -> (i_max - i_ahead <= f2)%nat ->
  look_ahead f1 x i i_ahead i_max = look_ahead f2 x i i_ahead i_max.
Proof.
  revert f2 i_ahead. induction f1 as [|f1 IH]; intros [|f2] i_ahead H1 H2;
    simpl; try reflexivity.
  - destruct (Nat.ltb_spec i_ahead i_max); [lia | reflexivity].
  - destruct (Nat.ltb_spec i_ahead i_max); [lia | reflexivity].
  - destruct (Nat.ltb_spec i_ahead i_max); simpl; [|reflexivity].
    destruct (Qeq_bool _ _); [|reflexivity]. apply IH; lia.
Qed.

Lemma local_maxima_fuel (f1 f2 : nat) (x : list Q) (i i_max : nat) :
  (i_max - i <= f1)%nat -> (i_max - i <= f2)%nat ->
  local_maxima_loop f1 x i i_max = local_maxima_loop f2 x i i_max.
Proof.
  revert f2 i. induction f1 as [|f1 IH]; intros [|f2] i H1 H2;
    simpl; try reflexivity.
  - destruct (Nat.ltb_spec i i_max); [lia | reflexivity].
  - destruct (Nat.ltb_spec i i_max); [lia | reflexivity].
  - destruct (Nat.ltb_spec i i_max); simpl; [|reflexivity].
    pose proof (look_ahead_bounds (length x) x i (i + 1) i_max ltac:(lia)).
    destruct (Qltb _ _); [|apply IH; lia].
    destruct (Qltb _ _); [f_equal|]; apply IH; lia.
Qed.

Lemma _local_maxima_1d_fuel (x : list Q) (extra : nat) :
  local_maxima_loop (length x + extra) x 1 (length x - 1)
  = _local_maxima_1d x
  /\ (forall i i_ahead,
        look_ahead (length x + extra) x i i_ahead (length x - 1)
        = look_ahead (length x) x i i_ahead (length x - 1)).
Proof.
  split; [apply local_maxima_fuel; lia|].
  intros i i_ahead. apply look_ahead_fuel; lia.
Qed.

(** The detected peaks are interior indices, ascending and at least two
    apart. *)
Lemma find_peaks_spaced (x : list Q) (threshold : Q) :
  exists pks : list nat,
    find_peaks x threshold = map Z.of_nat pks
    /\ spaced 1 (length x - 1) pks
    /\ (forall p, In p pks <->
          In p (_local_maxima_1d x)
          /\ threshold <= Qmin (nth p x 0 - nth (p - 1) x 0)
                               (nth p x 0 - nth (p + 1) x 0)).
Proof.
  eexists. split; [reflexivity|]. split.
  - apply spaced_filter, local_maxima_spaced.
  - intros p. rewrite filter_In. unfold _select_by_peak_threshold.
    now rewrite Qle_bool_iff.
Qed.

Lemma np_index_in (n k : nat) :
  (k < n)%nat -> np_index n (Z.of_nat k) = Ok k.
Proof.
  intros Hk. unfold np_index.
  destruct (Z.leb_spec 0 (Z.of_nat k)); [|lia].
  destruct (Z.ltb_spec (Z.of_nat k) (Z.of_nat n)); [|lia].
  simpl. now rewrite Nat2Z.id.
Qed.

(** The replacement loop on interior, spaced peaks: it ends normally, keeps
    the length, and leaves at each index what [replaced] says. *)
Lemma clean_loop_replaced (pks : list nat) (sig : list Q) (lo : nat) :
  (1 <= lo)%nat -> spaced lo (length sig - 1) pks ->
  exists out,
    clean_loop sig (map Z.of_nat pks) = Ok out
    /\ length out = length sig
    /\ (forall j, (j < length sig)%nat -> nth j out 0 = replaced sig pks j).
Proof.
  revert sig lo. induction pks as [|p pks IH]; intros sig lo Hlo Hsp.
  - exists sig. split; [reflexivity|]. split; [reflexivity|].
    intros j _. unfold replaced.
    rewrite bool_decide_eq_false_2; [reflexivity | apply not_elem_of_nil].
  - destruct Hsp as (Hp & Hhi & Hrest). cbn [map clean_loop].
    unfold np_getitem, np_setitem.
    replace (Z.of_nat p - 1)%Z with (Z.of_nat (p - 1)) by lia.
    replace (Z.of_nat p + 1)%Z with (Z.of_nat (p + 1)) by lia.
    rewrite !np_index_in by lia. cbn [bind].
    set (v := np_mean [nth (p - 1) sig 0; nth (p + 1) sig 0]).
    destruct (IH (<[p := v]> sig) (p + 2)%nat) as (out & Hrun & Hlen & Hval).
    { lia. }
    { now rewrite length_insert. }
    rewrite length_insert in Hlen, Hval.
    exists out. split; [exact Hrun|]. split; [exact Hlen|].
    intros j Hj. rewrite (Hval j Hj). unfold replaced.
    destruct (decide (j = p)) as [->|Hne].
    + rewrite bool_decide_eq_false_2.
      * rewrite bool_decide_eq_true_2 by constructor.
        apply nth_lookup_Some. now apply list_lookup_insert_eq.
      * intros Hin%list_elem_of_In.
        pose proof (spaced_range _ _ _ _ Hrest Hin). lia.
    + destruct (decide (j ∈ pks)) as [Hin|Hnin].
      * rewrite !bool_decide_eq_true_2 by (assumption || now constructor).
        apply list_elem_of_In in Hin.
        pose proof (spaced_range _ _ _ _ Hrest Hin).
        rewrite !(nth_lookup _ _ 0%Q), !list_lookup_insert_ne by lia.
        reflexivity.
      * rewrite !bool_decide_eq_false_2
          by (rewrite ?elem_of_cons; tauto).
        rewrite !(nth_lookup _ _ 0%Q), list_lookup_insert_ne by congruence.
        reflexivity.
Qed.

(** What the cleaner does: the peaks it reports are the plateau midpoints of
    the absolute signal whose two vertical distances to the neighbouring
    samples are at least [n_sigma] times the standard deviation; they are
    interior, ascending and never adjacent; each is replaced by the mean of
    its two neighbours and every other sample is kept. *)
Lemma _clean_sig_behaviour (np_sqrt : Q -> Q) (sig : list Q) (n_sigma : Q) :
  exists (out : list Q) (pks : list nat),
    _clean_sig np_sqrt sig n_sigma = Ok (out, map Z.of_nat pks)
    /\ length out = length sig
    /\ spaced 1 (length sig - 1) pks
    /\ (forall j, (j < length sig)%nat -> nth j out 0 = replaced sig pks j)
    /\ (forall p, In p pks <->
          In p (_local_maxima_1d (map Qabs sig))
          /\ np_std np_sqrt sig * n_sigma
             <= Qmin (Qabs (nth p sig 0) - Qabs (nth (p - 1) sig 0))
                     (Qabs (nth p sig 0) - Qabs (nth (p + 1) sig 0))).
Proof.
  unfold _clean_sig.
  destruct (find_peaks_spaced (map Qabs sig) (np_std np_sqrt sig * n_sigma))
    as (pks & -> & Hsp & Hdet).
  rewrite length_map in Hsp.
  destruct (clean_loop_replaced pks sig 1 ltac:(lia) Hsp)
    as (out & -> & Hlen & Hval).
  exists out, pks. cbn [bind].
  split; [reflexivity|]. split; [assumption|]. split; [assumption|].
  split; [assumption|].
  intros p. rewrite (Hdet p), <- !(map_nth Qabs). reflexivity.
Qed.

(** C7, as the code has it. The peak detector reports interior indices
    only, from 1 to the length minus 2, so both neighbours of a reported
    peak exist: on every signal the cleaner returns a signal of the same
    length with the indices it replaced, and never fails on an index out of
    range. *)
Theorem clean_sig_peaks_interior :
  forall (np_sqrt : Q -> Q) (sig : list Q) (n_sigma : Q),
    exists (out : list Q) (i_pks : list Z),
      _clean_sig np_sqrt sig n_sigma = Ok (out, i_pks)
      /\ length out = length sig
      /\ Forall (fun i_pk => (1 <= i_pk <= Z.of_nat (length sig) - 2)%Z) i_pks.
Proof.
  intros np_sqrt sig n_sigma.
  destruct (_clean_sig_behaviour np_sqrt sig n_sigma)
    as (out & pks & Hrun & Hlen & Hsp & _).
  exists out, (map Z.of_nat pks).
  split; [exact Hrun|]. split; [exact Hlen|].
  apply Forall_forall. intros z [p [-> Hp]]%list_elem_of_fmap.
  apply list_elem_of_In in Hp.
  pose proof (spaced_range _ _ _ _ Hsp Hp). lia.
Qed.

(** No signal makes the cleaner fail on an index out of range. With the
    threshold at zero every peak is reported, and the large samples at the
    two ends of [100, 0, 0, 100] are still not: the signal comes back
    unchanged. *)
Lemma clean_sig_no_index_error :
  (forall (np_sqrt : Q -> Q) (sig : list Q) (n_sigma : Q),
     _clean_sig np_sqrt sig n_sigma <> Raise IndexError)
  /\ _clean_sig sqrt_floor [100; 0; 0; 100] 0 = Ok ([100; 0; 0; 100], []).
Proof.
  split; [|reflexivity].
  intros np_sqrt sig n_sigma.
  destruct (_clean_sig_behaviour np_sqrt sig n_sigma)
    as (out & pks & Hrun & _).
  rewrite Hrun. discriminate.
Qed.

(** C3, where the code departs from it. In [10, 10, 11, 10, 10] the
    standard deviation is 2/5; with [n_sigma = 3] the threshold is 6/5. The
    sample at index 2 is a local maximum of the absolute signal and is
    larger than the threshold, and the cleaner leaves it in place: it rises
    above its neighbours by 1 only, which is less than the threshold. *)
Lemma clean_sig_keeps_low_step :
  np_std sqrt_floor [10; 10; 11; 10; 10] == 2 # 5
  /\ np_std sqrt_floor [10; 10; 11; 10; 10] * 3 < Qabs 11
  /\ _local_maxima_1d (map Qabs [10; 10; 11; 10; 10]) = [2%nat]
  /\ _clean_sig sqrt_floor [10; 10; 11; 10; 10] 3
     = Ok ([10; 10; 11; 10; 10], []).
Proof. repeat split. Qed.

(** The spike of the specification, [0, 0, 100, 0, 0]: whenever [n_sigma]
    times the standard deviation is at most 100, index 2 is replaced by the
    mean of its neighbours. *)
Lemma clean_sig_spike (np_sqrt : Q -> Q) (n_sigma : Q) :
  np_std np_sqrt [0; 0; 100; 0; 0] * n_sigma <= 100 ->
  exists out,
    _clean_sig np_sqrt [0; 0; 100; 0; 0] n_sigma = Ok (out, [2%Z])
    /\ Forall2 Qeq out [0; 0; 0; 0; 0].
Proof.
  intros Hthr. unfold _clean_sig, find_peaks.
  change (_local_maxima_1d (map Qabs [0; 0; 100; 0; 0])) with [2%nat].
  cbn [List.filter]. unfold _select_by_peak_threshold.
  destruct (Qle_bool_reflect (np_std np_sqrt [0; 0; 100; 0; 0] * n_sigma)
              (Qmin (nth 2 (map Qabs [0; 0; 100; 0; 0]) 0
                     - nth (2 - 1) (map Qabs [0; 0; 100; 0; 0]) 0)
                    (nth 2 (map Qabs [0; 0; 100; 0; 0]) 0
                     - nth (2 + 1) (map Qabs [0; 0; 100; 0; 0]) 0)))
    as [_|Hn].
  - eexists. split; [reflexivity|]. repeat constructor.
  - exfalso. apply Hn. eapply Qle_trans; [exact Hthr|]. now vm_compute.
Qed.

Example clean_sig_spike_run :
  np_std sqrt_floor [0; 0; 100; 0; 0] == 40
  /\ _clean_sig sqrt_floor [0; 0; 100; 0; 0] 2
     = Ok ([0; 0; 0 # 2; 0; 0], [2%Z]).
Proof. split; reflexivity. Qed.

End CleanerSpec.

(** * Further properties *)

(** ** The classifiers, character by character *)

Module NumtypeChars.
Import Py Numtype.

Lemma all_digits_only_chars s : all_digits s = only_chars is_digit s.
Proof. induction s as [|a s IH]; simpl; [reflexivity | now rewrite IH]. Qed.

(** A string of allowed characters holds no character that is not
    allowed. *)
Lemma only_chars_without (allowed : ascii -> bool) (c : ascii) (s : string) :
  allowed c = false ->
  only_chars allowed s = true <->
  only_chars (fun a => allowed a || Ascii.eqb a c) s = true
  /\ count_char c s = 0.
Proof.
  intros Hc. induction s as [|a s IH]; simpl; [tauto|].
  destruct (Ascii.eqb_spec a c) as [->|Hne].
  - rewrite Hc. simpl. split; [discriminate | intros [_ H]; discriminate].
  - rewrite orb_false_r, !andb_true_iff, IH. simpl. tauto.
Qed.

(** What is left after the first [c] is removed is made of allowed
    characters exactly when the string is made of allowed characters and of
    at most one [c]. *)
Lemma only_chars_remove_first (allowed : ascii -> bool) (c : ascii)
    (s : string) :
  allowed c = false ->
  only_chars allowed (remove_first c s) = true <->
  only_chars (fun a => allowed a || Ascii.eqb a c) s = true
  /\ count_char c s <= 1.
Proof.
  intros Hc. induction s as [|a s IH]; simpl; [intuition lia|].
  destruct (Ascii.eqb_spec a c) as [->|Hne].
  - rewrite orb_true_r. simpl.
    rewrite (only_chars_without allowed c s Hc). intuition lia.
  - simpl. rewrite orb_false_r, !andb_true_iff, IH. tauto.
Qed.

Lemma count_char_remove_first (c d : ascii) (s : string) :
  c <> d -> count_char d (remove_first c s) = count_char d s.
Proof.
  intros Hcd. induction s as [|a s IH]; simpl; [reflexivity|].
  destruct (Ascii.eqb_spec a c) as [->|Hne]; simpl.
  - destruct (Ascii.eqb_spec c d); [contradiction | reflexivity].
  - now rewrite IH.
Qed.

Lemma count_digits_remove_first (c : ascii) (s : string) :
  is_digit c = false -> count_digits (remove_first c s) = count_digits s.
Proof.
  intros Hc. induction s as [|a s IH]; simpl; [reflexivity|].
  destruct (Ascii.eqb_spec a c) as [->|Hne]; simpl.
  - now rewrite Hc.
  - now rewrite IH.
Qed.

(** [isdigit]: digits only, and at least one. *)
Lemma isdigit_chars s :
  isdigit s = true <->
  only_chars is_digit s = true /\ 1 <= count_digits s.
Proof.
  destruct s as [|a s]; simpl; [intuition (discriminate || lia)|].
  rewrite all_digits_only_chars.
  destruct (is_digit a); simpl; [intuition lia | intuition discriminate].
Qed.

(** The test on the truth value of the string is implied by the test on
    its digits. *)
Lemma guarded_isdigit s t :
  (isdigit t = true -> truthy s = true) ->
  (if truthy s then if isdigit t then true else false else false) = isdigit t.
Proof. destruct (isdigit t), (truthy s); intuition discriminate. Qed.

Lemma remove_first_truthy c s :
  isdigit (remove_first c s) = true -> truthy s = true.
Proof. destruct s; [discriminate | reflexivity]. Qed.

(** X1. A string accepted by [str_is_pos_float] is accepted by
    [str_is_float]. *)
Theorem pos_float_is_float :
  forall s : string,
    (str_is_pos_float s = true -> str_is_float s = true)
    /\ str_is_pos_float "1.5" = true
    /\ str_is_float "-1.5" = true /\ str_is_pos_float "-1.5" = false.
Proof.
  intros s. split; [|repeat split].
  unfold str_is_pos_float, str_is_float.
  destruct (truthy s); [|discriminate].
  destruct (isdigit (remove_first "." s)) eqn:Hd; [intros _|discriminate].
  rewrite (NumtypeSpec.remove_first_digits "-" (remove_first "." s));
    [now rewrite Hd | reflexivity | now apply NumtypeSpec.isdigit_all_digits].
Qed.

(** X2. The strings accepted by [str_is_pos_int] are those accepted by both
    [str_is_int] and [str_is_pos_float]. *)
Theorem pos_int_is_int_and_pos_float :
  forall s : string,
    str_is_pos_int s = true
    <-> str_is_int s = true /\ str_is_pos_float s = true.
Proof.
  intros s. split.
  - intros H. split;
      [now apply NumtypeSpec.pos_int_is_int
      | now apply NumtypeSpec.pos_int_is_pos_float].
  - unfold str_is_int, str_is_pos_float, str_is_pos_int.
    destruct (truthy s); [|intros [? _]; discriminate].
    destruct (isdigit (remove_first "-" s)) eqn:Hi; [|intros [? _]; discriminate].
    destruct (isdigit (remove_first "." s)) eqn:Hf; [|intros [_ ?]; discriminate].
    intros _.
    apply isdigit_chars in Hi, Hf. destruct Hi as [Hi Hn], Hf as [Hf _].
    apply only_chars_remove_first in Hi, Hf; try reflexivity.
    destruct Hi as [Hi _], Hf as [Hf _].
    rewrite count_digits_remove_first in Hn by reflexivity.
    assert (Hd : isdigit s = true).
    { apply isdigit_chars. split; [|assumption].
      clear Hn. induction s as [|a s IH]; [reflexivity|]. simpl in *.
      apply andb_prop in Hi, Hf. destruct Hi as [Ha Hi], Hf as [Ha' Hf].
      rewrite (IH Hi Hf), andb_true_r.
      destruct (is_digit a); [reflexivity|]. simpl in Ha, Ha'.
      apply Ascii.eqb_eq in Ha, Ha'. congruence. }
    now rewrite Hd.
Qed.

(** X3. The four classifiers on a string of ASCII characters, character
    by character. [str_is_pos_int] accepts the strings of digits with at
    least one digit; [str_is_int] also allows one "-", at any place;
    [str_is_pos_float] allows one "." at any place instead; [str_is_float]
    allows one of each, at any places. A string without a digit is rejected
    by all four. *)
Theorem classifiers_by_characters :
  forall s : string,
    isascii s = true ->
    (str_is_pos_int s = true <->
       only_chars is_digit s = true /\ 1 <= count_digits s)
    /\ (str_is_int s = true <->
          only_chars (fun a => is_digit a || Ascii.eqb a "-") s = true
          /\ count_char "-" s <= 1 /\ 1 <= count_digits s)
    /\ (str_is_pos_float s = true <->
          only_chars (fun a => is_digit a || Ascii.eqb a ".") s = true
          /\ count_char "." s <= 1 /\ 1 <= count_digits s)
    /\ (str_is_float s = true <->
          only_chars (fun a => is_digit a || Ascii.eqb a "-" || Ascii.eqb a ".")
            s = true
          /\ count_char "-" s <= 1 /\ count_char "." s <= 1
          /\ 1 <= count_digits s).
Proof.
  intros s _. unfold str_is_pos_int, str_is_int, str_is_pos_float, str_is_float.
  rewrite (guarded_isdigit s s) by apply NumtypeSpec.isdigit_truthy.
  rewrite (guarded_isdigit s (remove_first "-" s))
    by apply remove_first_truthy.
  rewrite (guarded_isdigit s (remove_first "." s))
    by apply remove_first_truthy.
  rewrite (guarded_isdigit s (remove_first "-" (remove_first "." s)))
    by (destruct s; [discriminate | reflexivity]).
  split; [apply isdigit_chars|].
  split; [|split].
  - rewrite isdigit_chars, only_chars_remove_first,
      count_digits_remove_first by reflexivity. tauto.
  - rewrite isdigit_chars, only_chars_remove_first,
      count_digits_remove_first by reflexivity. tauto.
  - rewrite isdigit_chars.
    rewrite (only_chars_remove_first is_digit "-") by reflexivity.
    rewrite (only_chars_remove_first
               (fun a => is_digit a || Ascii.eqb a "-") ".") by reflexivity.
    rewrite count_char_remove_first by discriminate.
    rewrite !count_digits_remove_first by reflexivity. tauto.
Qed.

(** The theorem at the string "1.-". *)
Lemma classifiers_by_characters_witness :
  (str_is_pos_int "1.-" = true <->
     only_chars is_digit "1.-" = true /\ 1 <= count_digits "1.-")
  /\ (str_is_int "1.-" = true <->
        only_chars (fun a => is_digit a || Ascii.eqb a "-") "1.-" = true
        /\ count_char "-" "1.-" <= 1 /\ 1 <= count_digits "1.-")
  /\ (str_is_pos_float "1.-" = true <->
        only_chars (fun a => is_digit a || Ascii.eqb a ".") "1.-" = true
        /\ count_char "." "1.-" <= 1 /\ 1 <= count_digits "1.-")
  /\ (str_is_float "1.-" = true <->
        only_chars (fun a => is_digit a || Ascii.eqb a "-" || Ascii.eqb a ".")
          "1.-" = true
        /\ count_char "-" "1.-" <= 1 /\ count_char "." "1.-" <= 1
        /\ 1 <= count_digits "1.-").
Proof. apply (classifiers_by_characters "1.-"). reflexivity. Defined.

(** The sign and the point are accepted wherever they stand. *)
Example classifiers_odd_places :
  str_is_int "1-2" = true /\ str_is_int "12-" = true
  /\ str_is_float "1.-" = true /\ str_is_pos_float "12." = true
  /\ str_is_int "--1" = false /\ str_is_float "1.2.3" = false
  /\ str_is_float "-." = false.
Proof. repeat split. Qed.

End NumtypeChars.

(** ** Ordinals *)

Module OrdinalSpec.
Import Py Utilities.
Import Decimal DecimalFacts.

(** *** The decimal digits of [str] *)

Lemma app_digit_cons (a b : uint) :
  app (D0 a) b = D0 (app a b) /\ app (D1 a) b = D1 (app a b)
  /\ app (D2 a) b = D2 (app a b) /\ app (D3 a) b = D3 (app a b)
  /\ app (D4 a) b = D4 (app a b) /\ app (D5 a) b = D5 (app a b)
  /\ app (D6 a) b = D6 (app a b) /\ app (D7 a) b = D7 (app a b)
  /\ app (D8 a) b = D8 (app a b) /\ app (D9 a) b = D9 (app a b).
Proof.
  repeat split; apply to_list_inj; simpl; now rewrite !app_spec.
Qed.

Lemma string_of_uint_app (a b : uint) :
  NilEmpty.string_of_uint (app a b)
  = (NilEmpty.string_of_uint a ++ NilEmpty.string_of_uint b)%string.
Proof.
  induction a; [now rewrite app_nil_l|..];
    destruct (app_digit_cons a b) as (H0 & H1 & H2 & H3 & H4 & H5 & H6 & H7 & H8 & H9);
    rewrite ?H0, ?H1, ?H2, ?H3, ?H4, ?H5, ?H6, ?H7, ?H8, ?H9; simpl; now rewrite IHa.
Qed.

Lemma to_uint_normal (p : positive) : unorm (Pos.to_uint p) = Pos.to_uint p.
Proof.
  rewrite <- DecimalPos.Unsigned.to_of, DecimalPos.Unsigned.of_to. reflexivity.
Qed.

Lemma unorm_app_normal (u dr : uint) :
  unorm u = u -> u <> zero -> unorm (app u dr) = app u dr.
Proof.
  intros Hn Hz.
  destruct u; try (destruct (app_digit_cons u dr) as (H0 & H1 & H2 & H3 & H4 & H5 & H6 & H7 & H8 & H9);
    rewrite ?H1, ?H2, ?H3, ?H4, ?H5, ?H6, ?H7, ?H8, ?H9; reflexivity).
  - discriminate Hn.
  - exfalso. rewrite unorm_D0 in Hn.
    pose proof (unorm_nonnil u).
    unfold unorm in Hn. destruct (nzhead u) eqn:E; try discriminate.
    + injection Hn as Hu. subst u. now apply Hz.
    + now apply (nzhead_nonzero u u0).
Qed.

Lemma rev_app_digit (u dr : uint) :
  DecimalPos.Unsigned.tl dr = Nil -> dr <> Nil ->
  DecimalPos.Unsigned.of_lu (rev (app u dr))
  = (DecimalPos.Unsigned.hd dr + 10 * Pos.of_uint u)%N.
Proof.
  intros Ht Hn.
  rewrite DecimalPos.Unsigned.of_uint_alt.
  assert (E : rev (app u dr) = app dr (rev u)).
  { apply to_list_inj. rewrite rev_spec, !app_spec, rev_spec.
    rewrite List.rev_app_distr.
    destruct dr; simpl in Ht; subst; try congruence; reflexivity. }
  rewrite E.
  destruct dr; simpl in Ht; subst; try congruence;
    destruct (app_digit_cons Nil (rev u)) as (H0 & H1 & H2 & H3 & H4 & H5 & H6 & H7 & H8 & H9);
    rewrite ?H0, ?H1, ?H2, ?H3, ?H4, ?H5, ?H6, ?H7, ?H8, ?H9, app_nil_l;
    now rewrite DecimalPos.Unsigned.of_lu_eqn.
Qed.

Lemma to_uint_snoc (pq p' : positive) (dr : uint) :
  DecimalPos.Unsigned.tl dr = Nil -> dr <> Nil ->
  N.pos p' = (DecimalPos.Unsigned.hd dr + 10 * N.pos pq)%N ->
  Pos.to_uint p' = app (Pos.to_uint pq) dr.
Proof.
  intros Ht Hn Hp.
  assert (H : Pos.of_uint (app (Pos.to_uint pq) dr) = N.pos p').
  { rewrite DecimalPos.Unsigned.of_uint_alt, rev_app_digit by assumption.
    now rewrite DecimalPos.Unsigned.of_to. }
  change (Pos.to_uint p') with (N.to_uint (N.pos p')).
  rewrite <- H, DecimalPos.Unsigned.to_of.
  apply unorm_app_normal; [apply to_uint_normal | apply DecimalPos.Unsigned.to_uint_nonzero].
Qed.

Lemma str_of_Z_snoc (q r : Z) :
  (0 < q)%Z -> (0 <= r < 10)%Z ->
  str_of_Z (10 * q + r) = (str_of_Z q ++ str_of_Z r)%string.
Proof.
  intros Hq Hr. unfold str_of_Z.
  destruct q as [|pq|]; try lia.
  destruct (10 * Z.pos pq + r)%Z as [|p'|] eqn:E; try lia.
  assert (Hcases : (r = 0 \/ r = 1 \/ r = 2 \/ r = 3 \/ r = 4 \/ r = 5
                    \/ r = 6 \/ r = 7 \/ r = 8 \/ r = 9)%Z) by lia.
  simpl Z.to_int at 1 2. cbn [NilEmpty.string_of_int].
  destruct Hcases as [->|[->|[->|[->|[->|[->|[->|[->|[->| ->]]]]]]]]];
    [ rewrite (to_uint_snoc pq p' (D0 Nil)) | rewrite (to_uint_snoc pq p' (D1 Nil))
    | rewrite (to_uint_snoc pq p' (D2 Nil)) | rewrite (to_uint_snoc pq p' (D3 Nil))
    | rewrite (to_uint_snoc pq p' (D4 Nil)) | rewrite (to_uint_snoc pq p' (D5 Nil))
    | rewrite (to_uint_snoc pq p' (D6 Nil)) | rewrite (to_uint_snoc pq p' (D7 Nil))
    | rewrite (to_uint_snoc pq p' (D8 Nil)) | rewrite (to_uint_snoc pq p' (D9 Nil)) ];
    try apply string_of_uint_app; try reflexivity; try discriminate;
    simpl; lia.
Qed.

(** [str(n)] is [str(n // 10)] followed by the units digit, and the units
    digit alone below 10. *)
Lemma str_of_Z_split (n : Z) :
  (0 <= n)%Z ->
  str_of_Z n
  = ((if (n <? 10)%Z then "" else str_of_Z (n / 10)) ++ str_of_Z (n mod 10))%string.
Proof.
  intros Hn. destruct (Z.ltb_spec n 10) as [Hlt|Hge].
  - now rewrite Z.mod_small by lia.
  - rewrite <- str_of_Z_snoc.
    + now rewrite <- Z.div_mod by lia.
    + apply Z.div_str_pos. lia.
    + apply Z.mod_pos_bound. lia.
Qed.

(** The character of one digit, and the tests that the code makes on it. *)
Lemma str_of_Z_digit (r : Z) :
  (0 <= r < 10)%Z ->
  exists c : ascii,
    str_of_Z r = String c ""
    /\ Ascii.eqb c "1" = (r =? 1)%Z
    /\ Ascii.eqb c "2" = (r =? 2)%Z
    /\ Ascii.eqb c "3" = (r =? 3)%Z.
Proof.
  intros Hr.
  assert (Hcases : (r = 0 \/ r = 1 \/ r = 2 \/ r = 3 \/ r = 4 \/ r = 5
                    \/ r = 6 \/ r = 7 \/ r = 8 \/ r = 9)%Z) by lia.
  destruct Hcases as [->|[->|[->|[->|[->|[->|[->|[->|[->| ->]]]]]]]]];
    eexists; repeat split.
Qed.

Lemma string_of_uint_digits (d : uint) :
  all_digits (NilEmpty.string_of_uint d) = true.
Proof. induction d; simpl; trivial. Qed.

Lemma str_of_Z_digits (n : Z) : (0 <= n)%Z -> all_digits (str_of_Z n) = true.
Proof.
  intros Hn. unfold str_of_Z. destruct n; try lia; apply string_of_uint_digits.
Qed.

Lemma str_of_Z_neg (n : Z) :
  (n < 0)%Z -> str_of_Z n = String "-" (str_of_Z (- n)).
Proof. intros Hn. destruct n; try lia. reflexivity. Qed.

Lemma remove_all_digits (c : ascii) (s : string) :
  is_digit c = false -> all_digits s = true -> remove_all c s = s.
Proof.
  intros Hc. induction s as [|a s IH]; simpl; [reflexivity|].
  intros [Ha Hs]%andb_prop.
  destruct (Ascii.eqb_spec a c) as [->|_]; [congruence|].
  now rewrite IH.
Qed.

(** *** Characters counted from the end *)

Lemma string_length_app (s t : string) :
  String.length (s ++ t) = String.length s + String.length t.
Proof. induction s as [|a s IH]; simpl; [reflexivity | now rewrite IH]. Qed.

Lemma string_app_assoc (s t u : string) :
  ((s ++ t) ++ u)%string = (s ++ (t ++ u))%string.
Proof.
  induction s as [|a s IH]; [reflexivity|].
  change (String a ((s ++ t) ++ u) = String a (s ++ (t ++ u)))%string.
  now f_equal.
Qed.

Lemma string_get_app (s t : string) (k : nat) :
  String.get (String.length s + k) (s ++ t) = String.get k t.
Proof. induction s as [|a s IH]; simpl; [reflexivity | exact IH]. Qed.

Lemma getitem_neg_last (pre : string) (c : ascii) :
  getitem_neg (pre ++ String c "") 1 = Ok c.
Proof.
  unfold getitem_neg. rewrite string_length_app.
  change (String.length (String c "")) with 1.
  destruct (Nat.leb_spec 1 (String.length pre + 1)); [|lia].
  replace (String.length pre + 1 - 1) with (String.length pre + 0) by lia.
  now rewrite string_get_app.
Qed.

Lemma getitem_neg_before_last (pre : string) (c2 c : ascii) :
  getitem_neg (pre ++ String c2 (String c "")) 2 = Ok c2.
Proof.
  unfold getitem_neg. rewrite string_length_app.
  change (String.length (String c2 (String c ""))) with 2.
  destruct (Nat.leb_spec 2 (String.length pre + 2)); [|lia].
  replace (String.length pre + 2 - 2) with (String.length pre + 0) by lia.
  now rewrite string_get_app.
Qed.

(** *** The suffix *)

(** The part of [num_to_ith] that follows the choice of [value], for a
    [value] that is the decimal writing of a number [m] that is not
    negative. *)
Lemma suffix_of_value (m : Z) (K : ascii -> bool -> result string) :
  (0 <= m)%Z ->
  exists (last_digit : ascii) (teen : bool),
    bind (getitem_neg (str_of_Z m) 1) (fun last_digit =>
    bind (if (1 <? String.length (str_of_Z m))%nat
          then bind (getitem_neg (str_of_Z m) 2)
                    (fun c => Ok (Ascii.eqb c "1"))
          else Ok false) (fun teen => K last_digit teen))
    = K last_digit teen
    /\ teen = ((10 <=? m) && ((m / 10) mod 10 =? 1))%Z
    /\ Ascii.eqb last_digit "1" = (m mod 10 =? 1)%Z
    /\ Ascii.eqb last_digit "2" = (m mod 10 =? 2)%Z
    /\ Ascii.eqb last_digit "3" = (m mod 10 =? 3)%Z.
Proof.
  intros Hm.
  destruct (str_of_Z_digit (m mod 10)) as (c & Hc & H1 & H2 & H3).
  { apply Z.mod_pos_bound. lia. }
  exists c. rewrite (str_of_Z_split m Hm), Hc.
  destruct (Z.ltb_spec m 10) as [Hlt|Hge].
  - exists false. rewrite (proj2 (Z.leb_gt 10 m) Hlt). simpl. tauto.
  - assert (Hq : (0 <= m / 10)%Z) by (apply Z.div_pos; lia).
    destruct (str_of_Z_digit ((m / 10) mod 10)) as (c2 & Hc2 & H21 & _).
    { apply Z.mod_pos_bound. lia. }
    rewrite (str_of_Z_split (m / 10) Hq), Hc2.
    set (pre := if (m / 10 <? 10)%Z then ""%string else str_of_Z (m / 10 / 10)).
    exists (Ascii.eqb c2 "1").
    rewrite (getitem_neg_last (pre ++ String c2 "")%string c). cbn [bind].
    rewrite string_app_assoc.
    change (String c2 "" ++ String c "")%string with (String c2 (String c "")).
    rewrite string_length_app.
    change (String.length (String c2 (String c ""))) with 2.
    destruct (Nat.ltb_spec 1 (String.length pre + 2)); [|lia].
    rewrite getitem_neg_before_last. cbn [bind].
    rewrite (proj2 (Z.leb_le 10 m) Hge), H21. simpl. tauto.
Qed.

Lemma num_to_ith_value (num m : Z) :
  num <> (-1)%Z -> (0 <= m)%Z ->
  (if (num <? -1)%Z then remove_all "-" (str_of_Z (num + 1)) else str_of_Z num)
  = str_of_Z m ->
  num_to_ith num
  = Ok (str_of_Z m
        ++ (if (num <? -1)%Z then ordinal_suffix m ++ " to last"
            else ordinal_suffix m))%string.
Proof.
  intros Hnum Hm Hvalue. unfold num_to_ith.
  destruct (Z.eqb_spec num (-1)); [contradiction|].
  rewrite Hvalue.
  destruct (suffix_of_value m
              (fun last_digit teen =>
                 Ok (str_of_Z m
                     ++ (if (num <? -1)%Z
                         then (if teen then "th"
                               else if Ascii.eqb last_digit "1" then "st"
                               else if Ascii.eqb last_digit "2" then "nd"
                               else if Ascii.eqb last_digit "3" then "rd"
                               else "th") ++ " to last"
                         else (if teen then "th"
                               else if Ascii.eqb last_digit "1" then "st"
                               else if Ascii.eqb last_digit "2" then "nd"
                               else if Ascii.eqb last_digit "3" then "rd"
                               else "th")))%string) Hm)
    as (c & teen & Hrun & Hteen & H1 & H2 & H3).
  cbv zeta. rewrite Hrun, H1, H2, H3, Hteen. reflexivity.
Qed.

(** X4. For a number that is not negative, [num_to_ith] returns its decimal
    writing followed by "th" when its tens digit is 1, and otherwise by
    "st", "nd" or "rd" when its units digit is 1, 2 or 3, and by "th" for
    any other units digit. *)
Theorem num_to_ith_nonnegative :
  forall num : Z,
    (0 <= num)%Z ->
    num_to_ith num = Ok (str_of_Z num ++ ordinal_suffix num)%string.
Proof.
  intros num Hnum.
  rewrite (num_to_ith_value num num); try lia.
  - destruct (Z.ltb_spec num (-1)); [lia | reflexivity].
  - destruct (Z.ltb_spec num (-1)); [lia | reflexivity].
Qed.

Lemma num_to_ith_nonnegative_witness :
  num_to_ith 112 = Ok (str_of_Z 112 ++ ordinal_suffix 112)%string.
Proof. apply (num_to_ith_nonnegative 112). lia. Defined.

(** X5. Below -1, [num_to_ith num] is what it returns for [-(num + 1)]
    followed by " to last"; so -2 gives "1st to last", and -1 alone gives
    "last". *)
Theorem num_to_ith_negative :
  forall num : Z,
    (num < -1)%Z ->
    exists s : string,
      num_to_ith (- (num + 1)) = Ok s
      /\ s = (str_of_Z (- (num + 1)) ++ ordinal_suffix (- (num + 1)))%string
      /\ num_to_ith num = Ok (s ++ " to last")%string.
Proof.
  intros num Hnum. eexists. split; [|split; [reflexivity|]].
  - rewrite (num_to_ith_value (- (num + 1)) (- (num + 1))); try lia.
    + destruct (Z.ltb_spec (- (num + 1)) (-1)); [lia | reflexivity].
    + destruct (Z.ltb_spec (- (num + 1)) (-1)); [lia | reflexivity].
  - rewrite (num_to_ith_value num (- (num + 1))); try lia.
    + destruct (Z.ltb_spec num (-1)); [|lia].
      now rewrite string_app_assoc.
    + destruct (Z.ltb_spec num (-1)); [|lia].
      rewrite str_of_Z_neg by lia. simpl.
      apply remove_all_digits; [reflexivity|].
      apply str_of_Z_digits. lia.
Qed.

Lemma num_to_ith_negative_witness :
  exists s : string,
    num_to_ith (- (-2 + 1)) = Ok s
    /\ s = (str_of_Z (- (-2 + 1)) ++ ordinal_suffix (- (-2 + 1)))%string
    /\ num_to_ith (-2) = Ok (s ++ " to last")%string.
Proof. apply (num_to_ith_negative (-2)). lia. Defined.

Example num_to_ith_samples :
  num_to_ith 0 = Ok "0th" /\ num_to_ith 1 = Ok "1st"
  /\ num_to_ith 11 = Ok "11th" /\ num_to_ith 22 = Ok "22nd"
  /\ num_to_ith 113 = Ok "113th" /\ num_to_ith 123 = Ok "123rd"
  /\ num_to_ith (-1) = Ok "last" /\ num_to_ith (-2) = Ok "1st to last"
  /\ num_to_ith (-13) = Ok "12th to last".
Proof. repeat split. Qed.

End OrdinalSpec.

(** ** Rows of [read_data_string] *)

Module RowsSpec.
Import Py Utilities.

(** A header that does not occur in the part of the line still to be
    written keeps the value it has. *)
Lemma foldl_insert_other (hs vs : list string) (d : gmap string string)
    (h : string) :
  (forall j, hs !! j <> Some h) ->
  foldl (fun d hv => <[fst hv := snd hv]> d) d (zip hs vs) !! h = d !! h.
Proof.
  revert vs d. induction hs as [|h0 hs IH]; intros [|v vs] d Hno;
    simpl; try reflexivity.
  rewrite IH by (intros j; apply (Hno (S j))).
  apply lookup_insert_ne. intros ->. now apply (Hno 0).
Qed.

(** The value under a header is the field at the last place where the
    header stands. *)
Lemma line_data_lookup (headers values : list string) (i : nat)
    (h v : string) :
  headers !! i = Some h -> values !! i = Some v ->
  (forall j, i < j -> headers !! j <> Some h) ->
  line_data headers values !! h = Some v.
Proof.
  unfold line_data. generalize (∅ : gmap string string).
  revert values i. induction headers as [|h0 hs IH];
    intros [|v0 vs] i d Hh Hv Hlast; try discriminate.
  destruct i as [|i]; simpl in *.
  - injection Hh as ->. injection Hv as ->.
    rewrite foldl_insert_other by (intros j; apply (Hlast (S j)); lia).
    apply lookup_insert_eq.
  - apply (IH vs i); [assumption | assumption |].
    intros j Hj. apply (Hlast (S j)). lia.
Qed.

Lemma str_of_Z_inj (n m : Z) : str_of_Z n = str_of_Z m -> n = m.
Proof.
  unfold str_of_Z. intros H. apply DecimalZ.to_int_inj.
  apply (f_equal NilEmpty.int_of_string) in H.
  rewrite !NilEmpty.isi in H. congruence.
Qed.

Lemma generic_headers_distinct (n i j : nat) :
  i < j -> generic_headers n !! j <> Some (str_of_Z (Z.of_nat i + 1)).
Proof.
  intros Hij H. unfold generic_headers in H.
  rewrite list_lookup_fmap in H.
  destruct (seq 0 n !! j) as [k|] eqn:Hk; [|discriminate].
  apply lookup_seq in Hk. destruct Hk as [-> _].
  injection H as H. apply str_of_Z_inj in H. lia.
Qed.

(** X6. [read_data_string] fails exactly when the delimiter or the line
    separator is empty, and it then fails with the [ValueError] of
    [str.split]; otherwise it returns a list of rows, however many fields
    the lines have. *)
Theorem read_data_string_errors :
  forall (text delimiter newline : string) (has_headerline : bool),
    (delimiter = "" \/ newline = "" ->
       read_data_string text delimiter newline has_headerline
       = Raise (ValueError "empty separator"))
    /\ (delimiter <> "" -> newline <> "" ->
          exists data,
            read_data_string text delimiter newline has_headerline = Ok data).
Proof.
  intros text delimiter newline has_headerline. split.
  - intros Hempty. unfold read_data_string.
    destruct newline as [|c nl]; [reflexivity|].
    destruct Hempty as [->|Hn]; [|discriminate].
    cbn [split bind].
    destruct (fields (String c nl) text) as [|first rest] eqn:Hlines.
    { exfalso. exact (UtilitiesSpec.split_go_nonempty _ _ _ _ Hlines). }
    now destruct has_headerline.
  - intros Hd Hn. unfold read_data_string.
    rewrite UtilitiesSpec.split_nonempty by assumption. cbn [bind].
    destruct (fields newline text) as [|first rest] eqn:Hlines.
    { exfalso. exact (UtilitiesSpec.split_go_nonempty _ _ _ _ Hlines). }
    destruct has_headerline;
      rewrite UtilitiesSpec.split_nonempty by assumption; cbn [bind];
      rewrite UtilitiesSpec.read_lines_ok by assumption; now eexists.
Qed.

(** X7. In every returned row the value under a header is the field of the
    line at the place where the header stands; if a header stands at
    several places, it is the field at the last of them. The rows follow
    the kept lines, one for one. *)
Theorem read_data_string_lookup :
  forall (text delimiter newline : string) (has_headerline : bool),
    delimiter <> "" -> newline <> "" ->
    exists (first : string) (rest : list string)
           (data : list (gmap string string)),
      fields newline text = first :: rest
      /\ read_data_string text delimiter newline has_headerline = Ok data
      /\ let headers :=
           if has_headerline then fields delimiter first
           else generic_headers (length (fields delimiter first)) in
         let kept :=
           List.filter
             (fun line =>
                (length (fields delimiter line) =? length headers)%nat)
             (if has_headerline then rest else first :: rest) in
         length data = length kept
         /\ (forall k line,
               kept !! k = Some line ->
               exists d,
                 data !! k = Some d
                 /\ (forall i h v,
                       headers !! i = Some h ->
                       fields delimiter line !! i = Some v ->
                       (forall j, i < j -> headers !! j <> Some h) ->
                       d !! h = Some v)).
Proof.
  intros text delimiter newline has_headerline Hd Hn.
  destruct (fields newline text) as [|first rest] eqn:Hlines.
  { exfalso. exact (UtilitiesSpec.split_go_nonempty _ _ _ _ Hlines). }
  set (headers := if has_headerline then fields delimiter first
                  else generic_headers (length (fields delimiter first))).
  set (kept := List.filter
                 (fun line =>
                    (length (fields delimiter line) =? length headers)%nat)
                 (if has_headerline then rest else first :: rest)).
  exists first, rest,
    (map (fun line => line_data headers (fields delimiter line)) kept).
  split; [reflexivity|]. split.
  { unfold read_data_string.
    rewrite UtilitiesSpec.split_nonempty, Hlines by assumption. cbn [bind].
    subst kept headers.
    destruct has_headerline;
      rewrite UtilitiesSpec.split_nonempty by assumption; cbn [bind];
      now rewrite UtilitiesSpec.read_lines_ok by assumption. }
  cbv zeta. fold headers. fold kept.
  split; [apply length_map|].
  intros k line Hk. eexists. split.
  - rewrite list_lookup_fmap, Hk. reflexivity.
  - intros i h v. apply line_data_lookup.
Qed.

Lemma read_data_string_lookup_witness :
  exists (first : string) (rest : list string)
         (data : list (gmap string string)),
    fields default_newline ("a,b,a" ++ default_newline ++ "1,2,3")%string
    = first :: rest
    /\ read_data_string ("a,b,a" ++ default_newline ++ "1,2,3")%string
         default_delimiter default_newline true = Ok data
    /\ let headers :=
         if true then fields default_delimiter first
         else generic_headers (length (fields default_delimiter first)) in
       let kept :=
         List.filter
           (fun line =>
              (length (fields default_delimiter line) =? length headers)%nat)
           (if true then rest else first :: rest) in
       length data = length kept
       /\ (forall k line,
             kept !! k = Some line ->
             exists d,
               data !! k = Some d
               /\ (forall i h v,
                     headers !! i = Some h ->
                     fields default_delimiter line !! i = Some v ->
                     (forall j, i < j -> headers !! j <> Some h) ->
                     d !! h = Some v)).
Proof.
  apply (read_data_string_lookup
           ("a,b,a" ++ default_newline ++ "1,2,3")%string
           default_delimiter default_newline true); discriminate.
Defined.

(** With the header "a" at two places the row keeps the later field. *)
Example read_data_string_repeated_header :
  read_data_string ("a,b,a" ++ default_newline ++ "1,2,3")%string
    default_delimiter default_newline true
  = Ok [ <["b" := "2"]> (<["a" := "3"]> ∅) ].
Proof. vm_compute. reflexivity. Qed.

(** X8. Without a header line the first line is always a row of the result,
    which is therefore never empty, and in that row the field at place [i]
    (counted from 0) stands under the key [str(i + 1)]. *)
Theorem read_data_string_first_row :
  forall text delimiter newline : string,
    delimiter <> "" -> newline <> "" ->
    exists (first : string) (rest : list string) (d : gmap string string)
           (data : list (gmap string string)),
      fields newline text = first :: rest
      /\ read_data_string text delimiter newline false = Ok (d :: data)
      /\ (forall i v,
            fields delimiter first !! i = Some v ->
            d !! str_of_Z (Z.of_nat i + 1) = Some v).
Proof.
  intros text delimiter newline Hd Hn.
  destruct (fields newline text) as [|first rest] eqn:Hlines.
  { exfalso. exact (UtilitiesSpec.split_go_nonempty _ _ _ _ Hlines). }
  exists first, rest. eexists. eexists. split; [reflexivity|]. split.
  - unfold read_data_string.
    rewrite UtilitiesSpec.split_nonempty, Hlines by assumption. cbn [bind].
    rewrite UtilitiesSpec.split_nonempty by assumption. cbn [bind].
    rewrite UtilitiesSpec.read_lines_ok by assumption.
    cbn [List.filter].
    rewrite UtilitiesSpec.length_generic_headers, Nat.eqb_refl. reflexivity.
  - intros i v Hv.
    apply (line_data_lookup _ _ i); [|assumption|].
    + apply UtilitiesSpec.generic_headers_lookup.
      now apply lookup_lt_Some in Hv.
    + intros j Hj. now apply generic_headers_distinct.
Qed.

Lemma read_data_string_first_row_witness :
  exists (first : string) (rest : list string) (d : gmap string string)
         (data : list (gmap string string)),
    fields default_newline "" = first :: rest
    /\ read_data_string "" default_delimiter default_newline false
       = Ok (d :: data)
    /\ (forall i v,
          fields default_delimiter first !! i = Some v ->
          d !! str_of_Z (Z.of_nat i + 1) = Some v).
Proof.
  apply (read_data_string_first_row "" default_delimiter default_newline);
    discriminate.
Defined.

(** The empty text without a header line gives one row with one empty
    field; with a header line it gives no row. *)
Example read_data_string_empty_text :
  read_data_string "" default_delimiter default_newline false
  = Ok [ <["1" := ""]> ∅ ]
  /\ read_data_string "" default_delimiter default_newline true = Ok [].
Proof. split; vm_compute; reflexivity. Qed.

End RowsSpec.

(** ** Order of the step function *)

Module StepValues.
Import Py Np Signal PyFacts.
Local Open Scope Q_scope.

(** A filter that no element passes gives the empty list. *)
Lemma filter_none {A} (p : A -> bool) (l : list A) :
  Forall (fun x => p x = false) l -> List.filter p l = [].
Proof.
  induction 1 as [|x l Hx _ IH]; simpl; [reflexivity | now rewrite Hx].
Qed.

(** On an ascending index the three groups, one after the other, are the
    index itself. *)
Lemma groups_of_sorted (index : list Q) (start end_ : Q) :
  start < end_ -> StronglySorted Qle index ->
  List.filter (fun ind => Qle_bool ind start) index
  ++ List.filter (fun ind => Qltb start ind && Qltb ind end_) index
  ++ List.filter (fun ind => Qle_bool end_ ind) index
  = index.
Proof.
  intros Hlt Hsorted.
  induction Hsorted as [|x l Hl IH Hx]; [reflexivity|].
  cbn [List.filter].
  destruct (Qle_bool_reflect x start) as [H1|H1].
  - destruct (Qltb_reflect start x); [lra|].
    destruct (Qle_bool_reflect end_ x); [lra|].
    cbn [andb]. simpl. now rewrite IH.
  - assert (Hfirst : List.filter (fun ind => Qle_bool ind start) l = []).
    { apply filter_none. eapply Forall_impl; [exact Hx|].
      intros y Hy. cbv beta. destruct (Qle_bool_reflect y start); [lra|reflexivity]. }
    rewrite Hfirst in *. simpl in IH.
    destruct (Qltb_reflect start x); [|lra].
    destruct (Qltb_reflect x end_) as [H2|H2].
    + destruct (Qle_bool_reflect end_ x); [lra|].
      cbn [andb]. simpl. now rewrite IH.
    + destruct (Qle_bool_reflect end_ x); [|lra].
      assert (Hmid : List.filter
                       (fun ind => Qltb start ind && Qltb ind end_) l = []).
      { apply filter_none. eapply Forall_impl; [exact Hx|].
        intros y Hy. cbv beta.
        destruct (Qltb_reflect y end_); [lra|]. apply andb_false_r. }
      rewrite Hmid in *. simpl in IH. cbn [andb]. simpl. now rewrite IH.
Qed.

(** X10. On an index in ascending order and a ramp of positive width the
    output is positional: its element at each place is the value of the
    step at the element of the index at that place. (On another index the
    output is grouped, not positional.) *)
Theorem step_function_positional :
  forall (index : list Q) (start init_val end_ final_val : Q),
    start < end_ -> StronglySorted Qle index ->
    step_function index start init_val end_ final_val
    = Ok (map (step_value start init_val end_ final_val) index).
Proof.
  intros index start init_val end_ final_val Hlt Hsorted.
  rewrite StepSpec.step_function_groups.
  rewrite <- (groups_of_sorted index start end_ Hlt Hsorted) at 4.
  rewrite !map_app. f_equal. f_equal; [|f_equal].
  - apply map_ext_in. intros ind [_ H]%filter_In.
    unfold step_value. now rewrite H.
  - apply map_ext_in. intros ind [_ H]%filter_In.
    apply andb_prop in H. destruct H as [H1 H2].
    unfold step_value. rewrite H2.
    destruct (Qltb_reflect start ind); [|discriminate].
    destruct (Qle_bool_reflect ind start); [lra | reflexivity].
  - apply map_ext_in. intros ind [_ H]%filter_In.
    unfold step_value.
    destruct (Qle_bool_reflect end_ ind); [|discriminate].
    destruct (Qle_bool_reflect ind start); [lra|].
    destruct (Qltb_reflect ind end_); [lra | reflexivity].
Qed.

Lemma step_function_positional_witness :
  step_function [2; 3; 7 # 2; 4; 5] 3 0 4 1
  = Ok (map (step_value 3 0 4 1) [2; 3; 7 # 2; 4; 5]).
Proof.
  apply (step_function_positional [2; 3; 7 # 2; 4; 5] 3 0 4 1).
  - reflexivity.
  - repeat constructor; discriminate.
Defined.

(** On the index [5, 2] the value for 2 comes first. *)
Example step_function_grouped :
  step_function [5; 2] 3 0 4 1 = Ok [0; 1]
  /\ map (step_value 3 0 4 1) [5; 2] = [1; 0].
Proof. split; reflexivity. Qed.

End StepValues.

(** ** Following the suggested window size *)

Module SuggestionSpec.
Import Py Np Signal PyFacts.
Local Open Scope Z_scope.

(** X11. When [n_fft] exceeds a sample count of at least 1, the window size
    that the error message suggests is at most the sample count, and
    [check_num_points] accepts it. *)
Theorem check_num_points_suggestion_fits :
  forall num n_fft : Z,
    num < n_fft -> 1 <= num ->
    exists suggested_n : Z,
      check_num_points num n_fft
      = Raise (ValueError (msg_try n_fft num suggested_n))
      /\ 1 <= suggested_n <= num
      /\ check_num_points num suggested_n = Ok tt.
Proof.
  intros num n_fft Hlt Hnum.
  assert (Hfits : forall s, s <= num -> check_num_points num s = Ok tt).
  { intros s Hs. unfold check_num_points.
    destruct (Z.ltb_spec num s); [lia | reflexivity]. }
  unfold check_num_points at 1.
  destruct (Z.ltb_spec num n_fft); [|lia].
  destruct (Z_lt_le_dec num (2 ^ 100)) as [Hsmall|Hlarge].
  - exists (2 ^ Z.log2 num).
    pose proof (Z.log2_spec num ltac:(lia)) as [Hlow _].
    pose proof (Z.pow_pos_nonneg 2 (Z.log2 num) ltac:(lia)
                  (Z.log2_nonneg num)).
    split; [apply (CheckSpec.suggest_loop_largest num n_fft 100); lia|].
    split; [lia | apply Hfits; lia].
  - exists (2 ^ 99).
    split; [now apply CheckSpec.suggest_loop_top|].
    split; [lia | apply Hfits; lia].
Qed.

Lemma check_num_points_suggestion_fits_witness :
  exists suggested_n : Z,
    check_num_points 1000 1024
    = Raise (ValueError (msg_try 1024 1000 suggested_n))
    /\ 1 <= suggested_n <= 1000
    /\ check_num_points 1000 suggested_n = Ok tt.
Proof. apply (check_num_points_suggestion_fits 1000 1024); lia. Defined.

End SuggestionSpec.

(** ** The located row at and beyond the values of the axis *)

Module NearestSpec.
Import Py Np Signal PyFacts.
Local Open Scope Q_scope.

(** X12. On a non-empty axis [_find_nearest] returns an index of the axis.
    If the value is on the axis, the entry at that index equals the value
    and it is the first such entry. If the value is at most the first
    entry, which is at most every entry, the index is 0. *)
Theorem _find_nearest_on_axis :
  forall (freqs : list Q) (value : Q),
    freqs <> [] ->
    exists (i : nat) (f_i : Q),
      _find_nearest freqs value = Ok i
      /\ freqs !! i = Some f_i
      /\ ((exists k f, freqs !! k = Some f /\ f == value) ->
          f_i == value
          /\ forall k f, (k < i)%nat -> freqs !! k = Some f -> ~ f == value)
      /\ ((exists f_0, freqs !! 0%nat = Some f_0 /\ value <= f_0
                       /\ Forall (fun f => f_0 <= f) freqs) ->
          i = 0%nat).
Proof.
  intros freqs value Hne.
  destruct (LocatorSpec._find_nearest_nearest freqs value Hne)
    as (i & Hrun & f_i & Hat & Hall & Hstrict).
  exists i, f_i. split; [exact Hrun|]. split; [exact Hat|].
  split.
  - intros (k & f & Hk & Hf).
    assert (Hzero : Qabs (f_i - value) <= 0).
    { eapply Qle_trans; [apply (Hall k f Hk)|].
      assert (E : f - value == 0) by lra. rewrite E. discriminate. }
    apply Qabs_Qle_condition in Hzero.
    assert (Hfi : f_i == value) by lra.
    split; [exact Hfi|].
    intros k' f' Hk' Hf' Heq.
    specialize (Hstrict k' f' Hk' Hf').
    assert (E : f' - value == f_i - value) by lra.
    rewrite E in Hstrict. lra.
  - intros (f_0 & H0 & Hv & Hmin).
    destruct i as [|i]; [reflexivity|]. exfalso.
    specialize (Hstrict 0%nat f_0 ltac:(lia) H0).
    rewrite Forall_forall in Hmin.
    assert (Hfi : f_0 <= f_i)
      by (apply Hmin; eapply list_elem_of_lookup_2; eassumption).
    rewrite (Qabs_pos (f_0 - value)), (Qabs_pos (f_i - value)) in Hstrict
      by lra.
    lra.
Qed.

Lemma _find_nearest_on_axis_witness :
  exists (i : nat) (f_i : Q),
    _find_nearest [0; 4; 8; 12; 16] 8 = Ok i
    /\ [0; 4; 8; 12; 16] !! i = Some f_i
    /\ ((exists k f, [0; 4; 8; 12; 16] !! k = Some f /\ f == 8) ->
        f_i == 8
        /\ forall k f, (k < i)%nat -> [0; 4; 8; 12; 16] !! k = Some f ->
                       ~ f == 8)
    /\ ((exists f_0, [0; 4; 8; 12; 16] !! 0%nat = Some f_0 /\ 8 <= f_0
                     /\ Forall (fun f => f_0 <= f) [0; 4; 8; 12; 16]) ->
        i = 0%nat).
Proof. apply (_find_nearest_on_axis [0; 4; 8; 12; 16] 8). discriminate. Defined.

(** A value below the axis is located at row 0, a value above it at the
    last row. *)
Example _find_nearest_ends :
  _find_nearest [0; 4; 8; 12; 16] (-3) = Ok 0%nat
  /\ _find_nearest [0; 4; 8; 12; 16] 100 = Ok 4%nat
  /\ _find_nearest [] 1 = Raise
       (ValueError "attempt to get argmin of an empty sequence").
Proof. repeat split. Qed.

End NearestSpec.

(** ** Speed bins: the fallback and the range of values *)

Module BinValuesSpec.
Import Py Np Signal PyFacts.
Local Open Scope Q_scope.

Lemma first_true_none (a : list bool) (i0 : nat) :
  (forall j b, a !! j = Some b -> b = false) -> first_true i0 a = None.
Proof.
  revert i0. induction a as [|b a IH]; intros i0 Hall; [reflexivity|].
  simpl. rewrite (Hall 0%nat b eq_refl).
  apply IH. intros j b'. apply (Hall (S j)).
Qed.

(** What one bin gets, whichever sample it is taken from. *)
Lemma input_bins_entry (time rpm bins ib : list Q) (k : nat) (b : Q) :
  input_bins time rpm bins = Ok ib -> ib !! k = Some b ->
  exists t_bn t0 i v,
    bins !! k = Some t_bn /\ time !! 0%nat = Some t0
    /\ np_argmax_bool (map (fun t => Qle_bool (t_bn + t0) t) time) = Ok i
    /\ rpm !! i = Some v /\ b = Qabs v.
Proof.
  intros Hib Hb. apply mapM_inv in Hib.
  destruct (Forall2_lookup_r _ _ _ _ _ Hib Hb) as (t_bn & Hk & Hrun).
  unfold getitem in Hrun.
  destruct (time !! 0%nat) as [t0|] eqn:H0; [|discriminate].
  cbn [bind] in Hrun.
  destruct (np_argmax_bool _) as [i|] eqn:Hi; [|discriminate].
  cbn [bind] in Hrun.
  destruct (rpm !! i) as [v|] eqn:Hv; [|discriminate].
  cbn [bind] in Hrun.
  exists t_bn, t0, i, v. repeat split; congruence.
Qed.



(** X14. Whenever the order chart is computed, the converted signal and the
    bins have no negative value, there is one bin value per time bin, and
    every bin value is the absolute converted value of one of the input
    samples. *)
Theorem order_chart_values :
  forall (time input_sig : list Q) (input_conversion_factor : Q)
         (bins rpm ib : list Q),
    order_chart time input_sig input_conversion_factor bins = Ok (rpm, ib) ->
    length input_sig = length time
    /\ length rpm = length input_sig
    /\ length ib = length bins
    /\ Forall (fun v => 0 <= v) rpm
    /\ Forall (fun b => 0 <= b
                 /\ exists i v, input_sig !! i = Some v
                      /\ b == Qabs (v * input_conversion_factor)) ib.
Proof.
  intros time input_sig c bins rpm ib. unfold order_chart.
  destruct (Nat.eqb_spec (length input_sig) (length time)) as [Hlen|];
    [|discriminate].
  cbn [negb].
  destruct (input_bins time (input_sig_rpm input_sig c) bins) as [ib'|]
    eqn:Hib; [|discriminate].
  cbn [bind]. intros [= <- <-].
  split; [exact Hlen|].
  split; [unfold input_sig_rpm; apply length_map|].
  split; [symmetry; eapply Forall2_length, mapM_inv; eassumption|].
  split.
  - unfold input_sig_rpm. apply Forall_forall.
    intros v [w [-> _]]%list_elem_of_fmap. apply Qabs_nonneg.
  - apply Forall_forall. intros b Hb.
    apply list_elem_of_lookup in Hb. destruct Hb as [k Hb].
    destruct (input_bins_entry _ _ _ _ _ _ Hib Hb)
      as (t_bn & t0 & i & v & _ & _ & _ & Hv & ->).
    split; [apply Qabs_nonneg|].
    unfold input_sig_rpm in Hv. rewrite list_lookup_fmap in Hv.
    destruct (input_sig !! i) as [w|] eqn:Hw; [|discriminate].
    exists i, w. split; [exact Hw|].
    change (Some (Qabs (w * c)) = Some v) in Hv.
    assert (Hval : v = Qabs (w * c)) by congruence.
    rewrite Hval. apply Qabs_pos, Qabs_nonneg.
Qed.

Lemma order_chart_values_witness :
  length [-360; 720; 1080; 1440] = length [0; 1; 2; 3]
  /\ length [21600 # 360; 43200 # 360; 64800 # 360; 86400 # 360]
     = length [-360; 720; 1080; 1440]
  /\ length [43200 # 360; 64800 # 360] = length [1 # 2; 3 # 2]
  /\ Forall (fun v => 0 <= v)
       [21600 # 360; 43200 # 360; 64800 # 360; 86400 # 360]
  /\ Forall (fun b => 0 <= b
               /\ exists i v, [-360; 720; 1080; 1440] !! i = Some v
                    /\ b == Qabs (v * (60 / 360)))
       [43200 # 360; 64800 # 360].
Proof.
  apply (order_chart_values [0; 1; 2; 3] [-360; 720; 1080; 1440] (60 / 360)
           [1 # 2; 3 # 2]).
  reflexivity.
Defined.

(** Signals of different lengths are refused. *)
Example order_chart_length_mismatch :
  order_chart [0; 1; 2] [10; 20] 1 [1 # 2]
  = Raise (ValueError
             "Input signal must be the same lenght as the response signel.").
Proof. reflexivity. Qed.

End BinValuesSpec.

(** ** The pipeline up to the spectrogram call *)

Module PipelineSpec.
Import Py Np Signal PyFacts.
Local Open Scope Q_scope.

(** The cleaning and scaling steps never fail and keep the length. *)
Lemma prepared_signal (np_sqrt : Q -> Q) (sig : list Q)
    (clean_sig : option Q) :
  exists sig',
    match clean_sig with
    | Some n_sigma =>
        bind (_clean_sig np_sqrt sig n_sigma) (fun r => Ok (fst r))
    | None => Ok sig
    end = Ok sig'
    /\ length sig' = length sig.
Proof.
  destruct clean_sig as [n_sigma|]; [|now exists sig].
  destruct (CleanerSpec._clean_sig_behaviour np_sqrt sig n_sigma)
    as (out & pks & -> & Hlen & _).
  now exists out.
Qed.

(** X15. When [n_fft] exceeds the number of time samples, [fft_watefall]
    stops with the error of [check_num_points] before any spectrogram is
    asked for, whatever the signal and the other options; the count that
    is checked is that of the time samples. *)
Theorem fft_watefall_window_too_large :
  forall (np_sqrt : Q -> Q) (time sig : list Q) (percent_overlap : Q)
         (n_fft : Z) (response_conversion_factor : option Q) (psd : bool)
         (z_scale : string) (clean_sig : option Q),
    (Z.of_nat (length time) < n_fft)%Z ->
    exists msg : string,
      check_num_points (Z.of_nat (length time)) n_fft
      = Raise (ValueError msg)
      /\ fft_watefall_specgram np_sqrt time sig percent_overlap n_fft
           response_conversion_factor psd z_scale clean_sig
         = Raise (ValueError msg).
Proof.
  intros np_sqrt time sig percent_overlap n_fft rcf psd z_scale clean_sig
    Hlt.
  assert (Hcheck : exists msg,
            check_num_points (Z.of_nat (length time)) n_fft
            = Raise (ValueError msg)).
  { unfold check_num_points.
    destruct (Z.ltb_spec (Z.of_nat (length time)) n_fft); [|lia].
    generalize pow2_candidates. intros l.
    induction l as [|p l IH]; simpl; [now eexists|].
    destruct (_ >=? _)%Z; [now eexists | exact IH]. }
  destruct Hcheck as [msg Hmsg]. exists msg. split; [exact Hmsg|].
  unfold fft_watefall_specgram.
  destruct (prepared_signal np_sqrt sig clean_sig) as (sig' & -> & _).
  cbn [bind]. now rewrite Hmsg.
Qed.

Lemma fft_watefall_window_too_large_witness :
  exists msg : string,
    check_num_points (Z.of_nat (length [0; 1; 2; 3])) 8
    = Raise (ValueError msg)
    /\ fft_watefall_specgram sqrt_floor [0; 1; 2; 3] [1; 2; 3; 4] 50 8
         (Some 1) false "linear" (Some 3)
       = Raise (ValueError msg).
Proof.
  apply (fft_watefall_window_too_large sqrt_floor [0; 1; 2; 3] [1; 2; 3; 4]
           50 8 (Some 1) false "linear" (Some 3)).
  reflexivity.
Defined.

(** X16. When [fft_watefall] reaches its spectrogram call, the signal it
    passes has the length of the signal it was given, there are at least
    two time samples and at least [n_fft] of them, the first and last time
    differ, and the sampling frequency passed is [1/t_s] for the mean
    sample interval [t_s = (time[-1] - time[0]) / (len(time) - 1)]. *)
Theorem fft_watefall_specgram_arguments :
  forall (np_sqrt : Q -> Q) (time sig : list Q) (percent_overlap : Q)
         (n_fft : Z) (response_conversion_factor : option Q) (psd : bool)
         (z_scale : string) (clean_sig : option Q)
         (sig' : list Q) (kw : specgram_kwargs),
    fft_watefall_specgram np_sqrt time sig percent_overlap n_fft
      response_conversion_factor psd z_scale clean_sig = Ok (sig', kw) ->
    length sig' = length sig
    /\ NFFT kw = n_fft
    /\ (n_fft <= Z.of_nat (length time))%Z
    /\ (2 <= length time)%nat
    /\ exists t_first t_last : Q,
         time !! 0%nat = Some t_first
         /\ last time = Some t_last
         /\ ~ t_last == t_first
         /\ Fs kw
            = 1 / ((t_last - t_first)
                   / inject_Z (Z.of_nat (length time) - 1)).
Proof.
  intros np_sqrt time sig percent_overlap n_fft rcf psd z_scale clean_sig
    sig' kw.
  unfold fft_watefall_specgram.
  destruct (prepared_signal np_sqrt sig clean_sig) as (sig0 & -> & Hlen).
  cbn [bind].
  unfold check_num_points.
  destruct (Z.ltb_spec (Z.of_nat (length time)) n_fft) as [Hlt|Hge].
  { intros H. exfalso. revert H. generalize pow2_candidates. intros l.
    induction l as [|p l IH]; simpl; [discriminate|].
    destruct (_ >=? _)%Z; [discriminate | exact IH]. }
  cbn [bind]. unfold getitem_last, getitem.
  destruct (last time) as [t_last|] eqn:Hlast; [|discriminate].
  destruct (time !! 0%nat) as [t_first|] eqn:Hfirst; [|discriminate].
  cbn [bind]. unfold py_div at 1.
  destruct (Qeq_bool_reflect (inject_Z (Z.of_nat (length time) - 1)) 0)
    as [Hone|Hmany]; [discriminate|].
  cbn [bind]. unfold py_div.
  destruct (Qeq_bool_reflect
              ((t_last - t_first) / inject_Z (Z.of_nat (length time) - 1)) 0)
    as [Hzero|Hspan]; [discriminate|].
  cbn [bind]. intros [= <- <-]. cbn [NFFT Fs].
  assert (Hn : (2 <= length time)%nat).
  { destruct time as [|t [|t' time']]; simpl in *; try lia; try discriminate.
    exfalso. apply Hmany. reflexivity. }
  assert (Hdiff : ~ t_last == t_first).
  { intros E. apply Hspan.
    assert (E0 : t_last - t_first == 0) by lra.
    rewrite E0. unfold Qdiv. apply Qmult_0_l. }
  split.
  { destruct rcf; [now rewrite length_map | assumption]. }
  split; [reflexivity|]. split; [assumption|]. split; [assumption|].
  exists t_first, t_last. split; [reflexivity|]. split; [reflexivity|].
  split; [assumption | reflexivity].
Qed.

Lemma fft_watefall_specgram_arguments_witness :
  length [1 * 1; 2 * 1; 3 * 1; 4 * 1] = length [1; 2; 3; 4]
  /\ NFFT {| NFFT := 2; Fs := 1 / ((3 - 0) / inject_Z (4 - 1));
             noverlap := 50 / 100 * inject_Z 2;
             detrend := "mean"; mode := "magnitude"; scale := "linear";
             cmap := "nipy_spectral"; window := None |} = 2%Z
  /\ (2 <= Z.of_nat (length [0; 1; 2; 3]))%Z
  /\ (2 <= length [0; 1; 2; 3])%nat
  /\ exists t_first t_last : Q,
       [0; 1; 2; 3] !! 0%nat = Some t_first
       /\ last [0; 1; 2; 3] = Some t_last
       /\ ~ t_last == t_first
       /\ Fs {| NFFT := 2; Fs := 1 / ((3 - 0) / inject_Z (4 - 1));
                noverlap := 50 / 100 * inject_Z 2;
                detrend := "mean"; mode := "magnitude"; scale := "linear";
                cmap := "nipy_spectral"; window := None |}
          = 1 / ((t_last - t_first)
                 / inject_Z (Z.of_nat (length [0; 1; 2; 3]) - 1)).
Proof.
  apply (fft_watefall_specgram_arguments sqrt_floor [0; 1; 2; 3] [1; 2; 3; 4]
           50 2 (Some 1) false "linear" None).
  reflexivity.
Defined.

(** A single time sample passes the window check with [n_fft = 1] and then
    has no sample interval to divide by. *)
Example fft_watefall_single_sample :
  fft_watefall_specgram sqrt_floor [0] [1] 50 1 (Some 1) false "linear" None
  = Raise ZeroDivisionError.
Proof. reflexivity. Qed.

End PipelineSpec.

(** ** What the cleaner replaces *)

Module ReplacementSpec.
Import Py Np Signal PyFacts.
Local Open Scope Q_scope.


(** X18. A signal of fewer than three samples has no interior sample and
    comes back unchanged, with no index replaced. *)
Theorem clean_sig_short_signal :
  forall (np_sqrt : Q -> Q) (sig : list Q) (n_sigma : Q),
    (length sig < 3)%nat ->
    _clean_sig np_sqrt sig n_sigma = Ok (sig, []).
Proof.
  intros np_sqrt sig n_sigma Hshort. unfold _clean_sig.
  destruct (CleanerSpec.find_peaks_spaced (map Qabs sig)
              (np_std np_sqrt sig * n_sigma)) as (pks & -> & Hsp & _).
  rewrite length_map in Hsp.
  destruct pks as [|p pks]; [reflexivity|].
  destruct Hsp as (H1 & H2 & _). lia.
Qed.

Lemma clean_sig_short_signal_witness :
  _clean_sig sqrt_floor [0; 100] 0 = Ok ([0; 100], []).
Proof. apply (clean_sig_short_signal sqrt_floor [0; 100] 0). simpl. lia. Defined.

(** A spike that is two samples wide is not replaced under a positive
    threshold: the middle of the flat top is level with a neighbour. *)
Example clean_sig_wide_spike :
  _clean_sig sqrt_floor [0; 0; 100; 100; 0; 0] 1
  = Ok ([0; 0; 100; 100; 0; 0], []).
Proof. reflexivity. Qed.

End ReplacementSpec.

(** ** Order lines *)

Module OrderLinesSpec.
Import Py Np Signal PyFacts.
Local Open Scope Q_scope.

Lemma conversion_positive (input_unit : string) (input_to_hz : Q) :
  _get_conversion_to_hz input_unit = Ok input_to_hz -> 0 < input_to_hz.
Proof.
  unfold _get_conversion_to_hz.
  destruct (String.eqb _ "rpm"); [intros [= <-]; reflexivity|].
  destruct (String.eqb _ "hz"); [intros [= <-]; reflexivity|].
  destruct (_ && _); [intros [= <-]; reflexivity | discriminate].
Qed.

(** One line, for a positive factor and a positive order: either it fits
    under the ceiling and ends at the right limit, or it is cut at the
    ceiling. *)
Lemma order_line_end (x_max y_max input_to_hz order : Q) :
  0 < input_to_hz -> 0 < order -> 0 <= x_max -> 0 <= y_max ->
  exists x_end y_end,
    (if Qltb y_max (x_max * input_to_hz * order) then
       bind (py_div y_max input_to_hz) (fun q =>
       bind (py_div q order) (fun x_end =>
       Ok ((0, x_end), (0, y_max))))
     else Ok ((0, x_max), (0, x_max * input_to_hz * order)))
    = Ok ((0, x_end), (0, y_end))
    /\ 0 <= x_end
    /\ 0 <= y_end <= y_max
    /\ ((x_max * input_to_hz * order <= y_max
         /\ x_end = x_max /\ y_end = x_max * input_to_hz * order)
        \/ (y_max < x_max * input_to_hz * order
            /\ y_end = y_max /\ x_end = y_max / input_to_hz / order)).
Proof.
  intros Hhz Horder Hx Hy.
  assert (Hk : 0 < input_to_hz * order) by (apply Qmult_lt_0_compat; assumption).
  destruct (Qltb_reflect y_max (x_max * input_to_hz * order)) as [Hclip|Hfit].
  - unfold py_div.
    destruct (Qeq_bool_reflect input_to_hz 0); [lra|]. cbn [bind].
    destruct (Qeq_bool_reflect order 0); [lra|]. cbn [bind].
    exists (y_max / input_to_hz / order), y_max.
    split; [reflexivity|].
    assert (E' : y_max / input_to_hz / order == y_max / (input_to_hz * order))
      by (field; split; lra).
    assert (H0 : 0 <= y_max / (input_to_hz * order))
      by (apply Qle_shift_div_l; lra).
    split; [lra|]. split; [lra|]. right. now repeat split.
  - exists x_max, (x_max * input_to_hz * order).
    split; [reflexivity|].
    assert (H0 : 0 <= x_max * (input_to_hz * order))
      by (apply Qmult_le_0_compat; lra).
    assert (x_max * (input_to_hz * order) == x_max * input_to_hz * order)
      by ring.
    split; [lra|]. split; [lra|]. left. split; [lra|]. now split.
Qed.

(** X19. For a recognised unit, axes limits that are not negative and
    positive orders, [_add_order_lines] gives one line per order, annotated
    with the order. Each line starts at the origin and ends at or below the
    upper limit. If the line of slope factor times order is at or below the
    upper limit at the right limit, it ends there, at
    [x_max * input_to_hz * order]; otherwise it is cut at the upper limit
    and ends at [y_max / input_to_hz / order]. For a unit without a
    factor the call fails before any line is made. *)
Theorem add_order_lines_inside :
  forall (x_max y_max : Q) (orders : list Q) (input_unit : string)
         (input_to_hz : Q),
    _get_conversion_to_hz input_unit = Ok input_to_hz ->
    0 <= x_max -> 0 <= y_max -> Forall (fun order => 0 < order) orders ->
    exists lines : list order_line,
      _add_order_lines x_max y_max orders input_unit = Ok lines
      /\ length lines = length orders
      /\ (forall k order l,
            orders !! k = Some order -> lines !! k = Some l ->
            annotation l = order
            /\ fst (x_coords l) = 0 /\ fst (y_coords l) = 0
            /\ 0 <= snd (x_coords l)
            /\ 0 <= snd (y_coords l) <= y_max
            /\ ((x_max * input_to_hz * order <= y_max
                 /\ snd (x_coords l) = x_max
                 /\ snd (y_coords l) = x_max * input_to_hz * order)
                \/ (y_max < x_max * input_to_hz * order
                    /\ snd (y_coords l) = y_max
                    /\ snd (x_coords l) = y_max / input_to_hz / order)))
      /\ (forall unit,
            raises (_get_conversion_to_hz unit) ->
            raises (_add_order_lines x_max y_max orders unit)).
Proof.
  intros x_max y_max orders input_unit input_to_hz Hunit Hx Hy Horders.
  pose proof (conversion_positive _ _ Hunit) as Hhz.
  unfold _add_order_lines. rewrite Hunit. cbn [bind].
  match goal with
  | |- exists lines, mapM ?f orders = _ /\ _ =>
      destruct (mapM_total f orders) as [lines Hlines]
  end.
  { intros order Hin. rewrite Forall_forall in Horders.
    assert (Ho : 0 < order) by (apply Horders; now apply list_elem_of_In).
    cbv zeta. cbn [snd].
    destruct (order_line_end x_max y_max input_to_hz order Hhz Ho Hx Hy)
      as (x_end & y_end & -> & _).
    cbn [bind]. now eexists. }
  exists lines. split; [exact Hlines|]. apply mapM_inv in Hlines.
  split; [symmetry; eapply Forall2_length; eassumption|]. split.
  - intros k order l Hk Hl.
    destruct (Forall2_lookup_l _ _ _ _ _ Hlines Hk) as (l' & Hl' & Hrun).
    assert (l' = l) as -> by congruence.
    rewrite Forall_forall in Horders.
    assert (Ho : 0 < order)
      by (apply Horders; eapply list_elem_of_lookup_2; eassumption).
    cbv zeta in Hrun. cbn [snd] in Hrun.
    destruct (order_line_end x_max y_max input_to_hz order Hhz Ho Hx Hy)
      as (x_end & y_end & Heq & Hxe & Hye & Hcase).
    rewrite Heq in Hrun. cbn [bind fst snd] in Hrun.
    injection Hrun as <-. cbn [annotation x_coords y_coords fst snd].
    split; [reflexivity|]. split; [reflexivity|]. split; [reflexivity|].
    split; [exact Hxe|]. split; [exact Hye | exact Hcase].
  - intros unit Hfail. unfold raises in *.
    destruct (_get_conversion_to_hz unit); [contradiction | exact I].
Qed.

Lemma add_order_lines_inside_witness :
  exists lines : list order_line,
    _add_order_lines 3000 100 [1; 4] "RPM" = Ok lines
    /\ length lines = length [1; 4]
    /\ (forall k order l,
          [1; 4] !! k = Some order -> lines !! k = Some l ->
          annotation l = order
          /\ fst (x_coords l) = 0 /\ fst (y_coords l) = 0
          /\ 0 <= snd (x_coords l)
          /\ 0 <= snd (y_coords l) <= 100
          /\ ((3000 * (1 # 60) * order <= 100
               /\ snd (x_coords l) = 3000
               /\ snd (y_coords l) = 3000 * (1 # 60) * order)
              \/ (100 < 3000 * (1 # 60) * order
                  /\ snd (y_coords l) = 100
                  /\ snd (x_coords l) = 100 / (1 # 60) / order)))
    /\ (forall unit,
          raises (_get_conversion_to_hz unit) ->
          raises (_add_order_lines 3000 100 [1; 4] unit)).
Proof.
  apply (add_order_lines_inside 3000 100 [1; 4] "RPM" (1 # 60)).
  - reflexivity.
  - discriminate.
  - discriminate.
  - repeat constructor.
Defined.

(** At 3000 RPM and a ceiling of 100 Hz the first order ends at 50 Hz on
    the right limit; the fourth order is cut at the ceiling, at 1500 RPM.
    An order of zero under a negative ceiling has nothing to divide by. *)
Example add_order_lines_sample :
  (exists l1 l4, _add_order_lines 3000 100 [1; 4] "RPM" = Ok [l1; l4]
     /\ snd (x_coords l1) == 3000 /\ snd (y_coords l1) == 50
     /\ snd (x_coords l4) == 1500 /\ snd (y_coords l4) == 100)
  /\ _add_order_lines 3000 (-1) [0] "RPM" = Raise ZeroDivisionError
  /\ _add_order_lines 3000 100 [1; 4] "furlongs/fortnight"
     = Raise (UnboundLocalError "input_to_hz").
Proof.
  split; [|split; reflexivity].
  eexists. eexists. split; [reflexivity|]. repeat split.
Qed.

End OrderLinesSpec.

(** ** The rows of the order waterfall *)

Module WaterfallRowsSpec.
Import Py Np Signal PyFacts.
Local Open Scope Q_scope.

Lemma sorted_lookup (l : list Q) (i j : nat) (a b : Q) :
  StronglySorted Qle l -> (i <= j)%nat ->
  l !! i = Some a -> l !! j = Some b -> a <= b.
Proof.
  intros Hs. revert i j. induction Hs as [|x l Hl IH Hx]; intros i j Hij Hi Hj;
    [discriminate|].
  destruct i as [|i], j as [|j]; simpl in *; try lia.
  - injection Hi as <-. injection Hj as <-. lra.
  - injection Hi as <-. rewrite Forall_forall in Hx.
    apply Hx. eapply list_elem_of_lookup_2; eassumption.
  - apply (IH i j); (lia || assumption).
Qed.

(** The index that the scan of the axis gives for a bound that some
    frequency reaches. *)
Lemma bound_index (freqs : list Q) (f : Q) (i : nat) :
  first_at_or_after freqs f i ->
  np_argmax_bool (map (fun g => Qle_bool f g) freqs) = Ok i.
Proof.
  intros (f_i & Hi & Hle & Hbefore).
  apply BinsSpec.np_argmax_bool_first.
  - rewrite list_lookup_fmap, Hi. simpl. f_equal.
    now destruct (Qle_bool_reflect f f_i).
  - intros j Hj.
    destruct (lookup_lt_is_Some_2 freqs j) as [g Hg].
    { apply lookup_lt_Some in Hi. lia. }
    rewrite list_lookup_fmap, Hg. simpl. f_equal.
    specialize (Hbefore j g Hj Hg).
    destruct (Qle_bool_reflect f g); [lra | reflexivity].
Qed.

(** X20. With a frequency range whose two bounds are reached on an axis in
    ascending order, the rows handed to the contour plot are the rows from
    the first frequency that is at least the lower bound up to, and not
    including, the first frequency that is at least the upper bound: row
    [k] is among them exactly when its frequency is at least the lower and
    below the upper bound. *)
Theorem order_waterfall_rows_in_range :
  forall (A : Type) (freqs : list Q) (f_lo f_hi : Q) (rows : list A)
         (i_min i_max : nat),
    StronglySorted Qle freqs ->
    first_at_or_after freqs f_lo i_min ->
    first_at_or_after freqs f_hi i_max ->
    order_waterfall_rows freqs (Some [f_lo; f_hi]) rows
    = Ok (take (i_max - i_min) (drop i_min rows))
    /\ (forall k f, freqs !! k = Some f ->
          ((i_min <= k < i_max)%nat <-> f_lo <= f /\ f < f_hi)).
Proof.
  intros A freqs f_lo f_hi rows i_min i_max Hsorted Hlo Hhi. split.
  - unfold order_waterfall_rows. cbn [getitem lookup list_lookup bind].
    rewrite (bound_index freqs f_lo i_min Hlo). cbn [bind].
    rewrite (bound_index freqs f_hi i_max Hhi). reflexivity.
  - intros k f Hk.
    destruct Hlo as (g_lo & Hglo & Hle_lo & Hbefore_lo).
    destruct Hhi as (g_hi & Hghi & Hle_hi & Hbefore_hi).
    split.
    + intros [H1 H2]. split.
      * pose proof (sorted_lookup freqs i_min k g_lo f Hsorted H1 Hglo Hk).
        lra.
      * now apply (Hbefore_hi k).
    + intros [H1 H2]. split.
      * destruct (Nat.le_gt_cases i_min k) as [|Hlt]; [assumption|].
        specialize (Hbefore_lo k f Hlt Hk). lra.
      * destruct (Nat.le_gt_cases i_max k) as [Hge|]; [|assumption].
        pose proof (sorted_lookup freqs i_max k g_hi f Hsorted Hge Hghi Hk).
        lra.
Qed.

Lemma order_waterfall_rows_in_range_witness :
  order_waterfall_rows [0; 4; 8; 12; 16] (Some [3; 12])
    ["r0"; "r1"; "r2"; "r3"; "r4"]%string
  = Ok (take (3 - 1) (drop 1 ["r0"; "r1"; "r2"; "r3"; "r4"]%string))
  /\ (forall k f, [0; 4; 8; 12; 16] !! k = Some f ->
        ((1 <= k < 3)%nat <-> 3 <= f /\ f < 12)).
Proof.
  apply (order_waterfall_rows_in_range string [0; 4; 8; 12; 16] 3 12
           ["r0"; "r1"; "r2"; "r3"; "r4"]%string 1 3).
  - repeat constructor; discriminate.
  - exists 4. split; [reflexivity|]. split; [discriminate|].
    intros [|j] t Hj; [intros [= <-]; reflexivity | lia].
  - exists 12. split; [reflexivity|]. split; [discriminate|].
    intros [|[|[|j]]] t Hj; try lia; intros [= <-]; reflexivity.
Defined.

(** X21. No row is handed to the contour plot when no frequency range is
    given, and none either when the upper bound of the range is above every
    frequency of the axis, whatever the lower bound. *)
Theorem order_waterfall_rows_empty :
  forall (A : Type) (freqs : list Q) (rows : list A),
    order_waterfall_rows freqs None rows = Ok []
    /\ (forall f_lo f_hi,
          freqs <> [] -> Forall (fun f => f < f_hi) freqs ->
          order_waterfall_rows freqs (Some [f_lo; f_hi]) rows = Ok []).
Proof.
  intros A freqs rows. split.
  - unfold order_waterfall_rows, py_slice. cbn [bind fst snd].
    now rewrite Nat.sub_diag.
  - intros f_lo f_hi Hne Hbelow.
    unfold order_waterfall_rows. cbn [getitem lookup list_lookup bind].
    destruct (BinsSpec.np_argmax_bool_total
                (map (fun f => Qle_bool f_lo f) freqs)) as (i_min & -> & _).
    { destruct freqs; [congruence | discriminate]. }
    cbn [bind].
    assert (Hhi : np_argmax_bool (map (fun f => Qle_bool f_hi f) freqs)
                  = Ok 0%nat).
    { unfold np_argmax_bool.
      destruct (map _ freqs) as [|b a] eqn:Hmap.
      { destruct freqs; [congruence | discriminate]. }
      rewrite <- Hmap. rewrite BinValuesSpec.first_true_none; [reflexivity|].
      intros j b' Hj. rewrite list_lookup_fmap in Hj.
      destruct (freqs !! j) as [f|] eqn:Hf; [|discriminate].
      injection Hj as <-. rewrite Forall_forall in Hbelow.
      assert (f < f_hi)
        by (apply Hbelow; eapply list_elem_of_lookup_2; eassumption).
      destruct (Qle_bool_reflect f_hi f); [lra | reflexivity]. }
    rewrite Hhi. reflexivity.
Qed.

Example order_waterfall_rows_samples :
  order_waterfall_rows [0; 4; 8; 12; 16] None [10; 11; 12; 13; 14]%Z = Ok []
  /\ order_waterfall_rows [0; 4; 8; 12; 16] (Some [0; 1000])
       [10; 11; 12; 13; 14]%Z = Ok []
  /\ order_waterfall_rows [0; 4; 8; 12; 16] (Some [3; 12])
       [10; 11; 12; 13; 14]%Z = Ok [11; 12]%Z
  /\ order_waterfall_rows [0; 4; 8; 12; 16] (Some [3])
       [10; 11; 12; 13; 14]%Z = Raise IndexError.
Proof. repeat split. Qed.

End WaterfallRowsSpec.
